(** * mtg-sdk-go: the set query, its page fetcher and its error checks

    A shallow embedding of the query side of the SDK (the [setQuery] type
    with [Where], [Copy], [All], [Page] and [PageS], the page fetcher
    [fetchSets], [checkError], and the two singular lookups
    [SetCode.Fetch] and [Fetch]) together with the properties its
    description states about them.

    Conventions of the embedding:
    - a Go [string] is a Rocq [string] (a sequence of bytes);
    - a Go [int] is a [Z];
    - a slice [[]T] is an [option (list T)], [None] being the nil slice;
    - a pointer [*T] to a struct that is never written through is an
      [option T], [None] being the nil pointer;
    - a Go [map] is a reference: a location in a store of [gmap]s;
    - a function returning [(..., error)] returns a tuple whose last
      component is an [option error], [None] being the nil error;
    - a run-time panic is an explicit outcome;
    - the network and the library functions the package calls
      (net/http, encoding/json, regexp, net/url, strconv) are the fields of
      a [Runtime], over which every definition and theorem is generic. *)

From Stdlib Require Import ZArith Lia Ascii String.
From stdpp Require Import base option list strings pretty gmap fin_maps.

Local Open Scope string_scope.
Local Open Scope list_scope.
Local Open Scope Z_scope.

(** ** Go values *)

(** [[]T]: the nil slice and slices with a (possibly empty) content. *)
Definition slice (A : Type) : Type := option (list A).

(** [*T], read only. *)
Definition ptr (A : Type) : Type := option A.

Definition elems {A : Type} (s : slice A) : list A := default [] s.

(** [len(s)]. *)
Definition len {A : Type} (s : slice A) : Z := Z.of_nat (length (elems s)).

(** [append(s, t...)]: with nothing to add the result is [s] itself (a nil
    slice stays nil), otherwise a slice holding both contents. *)
Definition append {A : Type} (s t : slice A) : slice A :=
  match elems t with
  | [] => s
  | x :: l => Some (elems s ++ x :: l)
  end.

(** [s[i]] for a constant index; [None] stands for the index panic. *)
Definition index {A : Type} (s : slice A) (i : nat) : option A := elems s !! i.

(** ** The package's types *)

Definition SetCode : Type := string.
Definition setColumn : Type := string.
Definition BoosterContent : Type := slice string.

Record Set_ : Type := mkSet {
  Code : SetCode;
  Name : string;
  Block : string;
  GathererCode : string;
  OldCode : string;
  MagicCardsInfoCode : string;
  ReleaseDate : string;
  Border : string;
  Expansion : string;
  OnlineOnly : bool;
  Booster : slice BoosterContent
}.

(** [ServerError], card.go. *)
Record ServerError : Type := mkServerError {
  Status : string;
  Message : string
}.

(** The error values that flow through the package: a [ServerError] struct
    used as an error, the string errors of [errors.New] and [fmt.Errorf],
    and the errors made by the libraries ([lib] names the library). *)
Inductive error : Type :=
| ServerError_error (e : ServerError)
| errorString (s : string)
| libraryError (lib : string) (msg : string).

(** [Error()]: for a [ServerError] the method of card.go, its [Message]. *)
Definition Error (e : error) : string :=
  match e with
  | ServerError_error s => Message s
  | errorString s => s
  | libraryError _ msg => msg
  end.

(** [http.Header], a [map[string][]string]; it is only read, and reading
    the nil map is reading the empty one. *)
Abbreviation Header := (gmap string (list string)).

(** The part of [*http.Response] the package reads. [Body] is the content
    of the body stream, which every path decodes at most once. *)
Record Response : Type := mkResponse {
  resp_Status : string;
  StatusCode : Z;
  resp_Header : Header;
  Body : string
}.

(** The anonymous struct [fetchSets] decodes into. *)
Record setResponse : Type := mkSetResponse {
  Sets : slice (ptr Set_);
  Set_field : ptr Set_
}.

(** ** The world outside the package *)

Class Runtime : Type := {
  (** the state of the network and of the servers behind it *)
  World : Type;
  (** the cards, whose fields no function below looks at *)
  Card : Type;
  (** [http.Get(url)] *)
  http_Get : string → World → (Response + error) * World;
  (** [json.NewDecoder(body).Decode(&sverr)] for [var sverr ServerError] *)
  json_Decode_ServerError : string → ServerError + error;
  (** [json.NewDecoder(body).Decode(&sr)] for the pointer [sr] of
      [fetchSets]: the JSON value [null] leaves the nil pointer in [sr] *)
  json_Decode_setResponse : string → ptr setResponse + error;
  (** [decodeCards(body)], declared in a file of the package that is not at
      hand *)
  decodeCards : string → slice (ptr Card) * option error;
  (** [linkRE.FindStringSubmatch(s)]: [linkRE] is declared in a file of the
      package that is not at hand; [All] reads [match[1]] and [match[2]],
      so a match is given as [(match[0], match[1], match[2])] *)
  linkRE_FindStringSubmatch : string → option (string * string * string);
  (** the constant [queryURL], declared in the same file *)
  queryURL : string;
  (** [url.Values.Encode] *)
  url_Values_Encode : Header → string;
  (** [strconv.Atoi] and [strconv.Itoa] *)
  strconv_Atoi : string → Z * option error;
  strconv_Itoa : Z → string;
  (** [strconv.Quote], the verb [%q] of [fmt] *)
  strconv_Quote : string → string
}.

(** ** strings.Split with a one-byte separator *)

(** [Split_from cur s]: the pieces of [cur ++ s], where [cur] holds no
    separator. *)
Fixpoint Split_from (sep : ascii) (cur : string) (s : string) : list string :=
  match s with
  | EmptyString => [cur]
  | String c s' =>
      if Ascii.eqb c sep then cur :: Split_from sep EmptyString s'
      else Split_from sep (cur +:+ String c EmptyString) s'
  end.

(** [strings.Split(s, sep)] for [sep] of length one, the only use the
    package makes of it. *)
Definition strings_Split (s : string) (sep : ascii) : list string :=
  Split_from sep EmptyString s.

(** [strings.Replace(s, old, new, 1)] for [old] and [new] of length one:
    the first [old] of [s] becomes [new]. *)
Fixpoint strings_Replace1 (s : string) (old new : ascii) : string :=
  match s with
  | EmptyString => EmptyString
  | String c s' =>
      if Ascii.eqb c old then String new s'
      else String c (strings_Replace1 s' old new)
  end.

(** Whether the byte [a] occurs in [s]: [strings.IndexByte(s, a) >= 0]. *)
Fixpoint has_byte (a : ascii) (s : string) : bool :=
  match s with
  | EmptyString => false
  | String c s' => Ascii.eqb c a || has_byte a s'
  end.

(** ** BoosterContent.String *)

(** The loop [for i, c := range *b] of [BoosterContent.String]: [i] is the
    index of the head of [cs], [s] the string built so far. *)
Fixpoint BoosterContent_String_loop (i : nat) (s : string) (cs : list string)
  : string :=
  match cs with
  | [] => s
  | c :: cs' =>
      let s1 := if decide (0 < i)%nat then s +:+ "|" else s in
      BoosterContent_String_loop (S i) (s1 +:+ c) cs'
  end.

(** [BoosterContent.String], on the slice its receiver points to. *)
Definition BoosterContent_String (b : BoosterContent) : string :=
  BoosterContent_String_loop 0 EmptyString (elems b).

(** ** Outcomes of a call *)

Inductive run (A : Type) : Type :=
| Done (a : A)
| Panic (msg : string).
Arguments Done {A} a.
Arguments Panic {A} msg.

(** ** The store of maps, and the filter accumulator *)

(** A value of a Go map type: the nil map or a reference to a map made by
    [make]. *)
Inductive mapref : Type :=
| nilmap
| ref (l : positive).

(** [type setQuery map[string]string]. *)
Definition setQuery : Type := mapref.

(** The maps made so far. *)
Abbreviation Store := (gmap positive (gmap string string)).

(** The entries a map value holds; the nil map reads as the empty map. *)
Definition entries (h : Store) (q : setQuery) : gmap string string :=
  match q with
  | nilmap => ∅
  | ref l => default ∅ (h !! l)
  end.

(** [NewSetQuery]: [make(setQuery)]. *)
Definition NewSetQuery (h : Store) : setQuery * Store :=
  let l := fresh (dom h) in (ref l, <[l := ∅]> h).

(** [setQuery.Copy]: a new map [r], filled by the loop
    [for k, v := range q { r[k] = v }]. *)
Definition Copy (q : setQuery) (h : Store) : setQuery * Store :=
  let l := fresh (dom h) in
  (ref l, <[l := map_fold (λ k v r, <[k := v]> r) ∅ (entries h q)]> h).

(** [setQuery.Where]: [q[string(col)] = qry; return q]. Writing to the nil
    map panics. *)
Definition Where (q : setQuery) (col : setColumn) (qry : string) (h : Store)
  : run setQuery * Store :=
  match q with
  | nilmap => (Panic "assignment to entry in nil map", h)
  | ref l => (Done q, <[l := <[col := qry]> (entries h q)]> h)
  end.

(** A chain [q.Where(c1, v1).Where(c2, v2)...]. *)
Fixpoint Wheres (q : setQuery) (ws : list (setColumn * string)) (h : Store)
  : run setQuery * Store :=
  match ws with
  | [] => (Done q, h)
  | (col, qry) :: ws' =>
      match Where q col qry h with
      | (Done q', h') => Wheres q' ws' h'
      | (Panic msg, h') => (Panic msg, h')
      end
  end.

(** The value a chain of [Where] calls sets a column to last, if any. *)
Fixpoint last_set (c : setColumn) (ws : list (setColumn * string))
  : option string :=
  match ws with
  | [] => None
  | (col, qry) :: ws' =>
      match last_set c ws' with
      | Some v => Some v
      | None => if decide (col = c) then Some qry else None
      end
  end.

(** [queryVals] after the loop [for k, v := range q { queryVals.Set(k, v) }]
    over a fresh [url.Values]; [Set] stores the one-element list. *)
Definition queryVals (m : gmap string string) : Header :=
  map_fold (λ k v vals, <[k := [v]]> vals) ∅ m.

Section Package.
Context {rt : Runtime}.

(** A computation that talks to the network. *)
Definition Go (A : Type) : Type := World → run A * World.

(** ** card.go *)

(** [checkError]. *)
Definition checkError (r : Response) : option error :=
  if decide (StatusCode r = 200) then None
  else match json_Decode_ServerError (Body r) with
       | inr _ => Some (errorString (resp_Status r))
       | inl sverr => Some (ServerError_error sverr)
       end.

(** [Fetch]. *)
Definition Fetch (filterID : string) : Go (ptr Card * option error) :=
  λ w,
  match http_Get (queryURL +:+ "cards/" +:+ filterID) w with
  | (inr err, w') => (Done (None, Some err), w')
  | (inl resp, w') =>
      match checkError resp with
      | Some err => (Done (None, Some err), w')
      | None =>
          match decodeCards (Body resp) with
          | (_, Some err) => (Done (None, Some err), w')
          | (cards, None) =>
              if decide (len cards ≠ 1) then
                (Done (None,
                       Some (errorString
                               ("Card with ID " +:+ filterID
                                +:+ " not found"))),
                 w')
              else match index cards 0 with
                   | Some c => (Done (c, None), w')
                   | None => (Panic "index out of range", w')
                   end
          end
      end
  end.

(** ** The set queries *)

(** [SetCode.GenerateBooster] is left out: it only calls [fetchCards], which
    is not at hand. *)

(** [fetchSets]. *)
Definition fetchSets (url : string)
  : Go (slice (ptr Set_) * Header * option error) :=
  λ w,
  match http_Get url w with
  | (inr err, w') => (Done (None, ∅, Some err), w')
  | (inl resp, w') =>
      match checkError resp with
      | Some err => (Done (None, ∅, Some err), w')
      | None =>
          match json_Decode_setResponse (Body resp) with
          | inr err => (Done (None, ∅, Some err), w')
          | inl None => (Panic "nil pointer dereference", w')
          | inl (Some sr) =>
              match Set_field sr with
              | Some s => (Done (Some [Some s], resp_Header resp, None), w')
              | None => (Done (Sets sr, resp_Header resp, None), w')
              end
          end
      end
  end.

(** [SetCode.Fetch]. *)
Definition SetCode_Fetch (s : SetCode) : Go (ptr Set_ * option error) :=
  λ w,
  match fetchSets (queryURL +:+ "sets/" +:+ s) w with
  | (Panic msg, w') => (Panic msg, w')
  | (Done (_, _, Some err), w') => (Done (None, Some err), w')
  | (Done (sets, _, None), w') =>
      if decide (len sets ≠ 1) then
        (Done (None,
               Some (errorString
                       ("Set " +:+ strconv_Quote s +:+ " not found"))),
         w')
      else match index sets 0 with
           | Some p => (Done (p, None), w')
           | None => (Panic "index out of range", w')
           end
  end.

(** One turn of the inner loop of [All]: [link] is a piece of the header
    value, [nextURL] the variable of that name. *)
Definition All_scan (nextURL : string) (link : string) : string :=
  match linkRE_FindStringSubmatch link with
  | Some (_, m1, m2) => if decide (m2 = "next") then m1 else nextURL
  | None => nextURL
  end.

(** The value of [nextURL] when [All] has read the header of a page: from
    [nextURL = ""] to the end of [if linkH, ok := header["Link"]; ok]. *)
Definition All_nextURL (header : Header) : run string :=
  match header !! "Link" with
  | Some linkH =>
      match linkH with
      | [] => Panic "index out of range"
      | linkH0 :: _ =>
          Done (foldl All_scan EmptyString (strings_Split linkH0 ","%char))
      end
  | None => Done EmptyString
  end.

(** The loop [for nextURL != ""] of [All]; [fuel] bounds the number of
    pages fetched, and [None] is the loop still running when it is spent. *)
Fixpoint All_loop (fuel : nat) (nextURL : string) (allSets : slice (ptr Set_))
    (w : World) : option (run (slice (ptr Set_) * option error) * World) :=
  if decide (nextURL = EmptyString) then Some (Done (allSets, None), w)
  else
    match fuel with
    | O => None
    | S fuel' =>
        match fetchSets nextURL w with
        | (Panic msg, w') => Some (Panic msg, w')
        | (Done (_, _, Some err), w') => Some (Done (None, Some err), w')
        | (Done (sets, header, None), w') =>
            match All_nextURL header with
            | Panic msg => Some (Panic msg, w')
            | Done nextURL' =>
                All_loop fuel' nextURL' (append allSets sets) w'
            end
        end
    end.

(** [All_reaches url allSets w url' allSets' w']: started with [nextURL = url]
    and [allSets], the loop of [All] comes, after some pages fetched with
    success, to the head of a turn with [nextURL = url'] and [allSets']. *)
Inductive All_reaches :
  string → slice (ptr Set_) → World →
  string → slice (ptr Set_) → World → Prop :=
| reaches_here (url : string) (allSets : slice (ptr Set_)) (w : World) :
    All_reaches url allSets w url allSets w
| reaches_page (url : string) (allSets : slice (ptr Set_)) (w : World)
    (sets : slice (ptr Set_)) (header : Header) (w1 : World) (next : string)
    (url' : string) (allSets' : slice (ptr Set_)) (w' : World) :
    url ≠ EmptyString →
    fetchSets url w = (Done (sets, header, None), w1) →
    All_nextURL header = Done next →
    All_reaches next (append allSets sets) w1 url' allSets' w' →
    All_reaches url allSets w url' allSets' w'.

(** [All_pages url w pages url' w']: started with [nextURL = url], the loop
    of [All] fetches with success the pages whose slices are [pages], in
    this order, and comes to the head of a turn with [nextURL = url']. *)
Inductive All_pages :
  string → World → list (slice (ptr Set_)) → string → World → Prop :=
| pages_none (url : string) (w : World) : All_pages url w [] url w
| pages_more (url : string) (w : World) (sets : slice (ptr Set_))
    (header : Header) (w1 : World) (next : string)
    (pages : list (slice (ptr Set_))) (url' : string) (w' : World) :
    url ≠ EmptyString →
    fetchSets url w = (Done (sets, header, None), w1) →
    All_nextURL header = Done next →
    All_pages next w1 pages url' w' →
    All_pages url w (sets :: pages) url' w'.

(** The first URL of [All]: [queryURL + "sets?" + queryVals.Encode()]. *)
Definition All_url (h : Store) (q : setQuery) : string :=
  queryURL +:+ "sets?" +:+ url_Values_Encode (queryVals (entries h q)).

(** [setQuery.All]. *)
Definition All (h : Store) (q : setQuery) (fuel : nat) (w : World)
  : option (run (slice (ptr Set_) * option error) * World) :=
  All_loop fuel (All_url h q) None w.

(** The URL of [PageS]: the filters, then [page] and [pageSize]. *)
Definition PageS_url (h : Store) (q : setQuery) (pageNum pageSize : Z)
  : string :=
  let queryVals1 := queryVals (entries h q) in
  let queryVals2 := <["page" := [strconv_Itoa pageNum]]> queryVals1 in
  let queryVals3 := <["pageSize" := [strconv_Itoa pageSize]]> queryVals2 in
  queryURL +:+ "sets?" +:+ url_Values_Encode queryVals3.

(** [setQuery.PageS]. *)
Definition PageS (h : Store) (q : setQuery) (pageNum pageSize : Z)
  : Go (slice (ptr Set_) * Z * option error) :=
  λ w,
  match fetchSets (PageS_url h q pageNum pageSize) w with
  | (Panic msg, w') => (Panic msg, w')
  | (Done (_, _, Some err), w') => (Done (None, 0, Some err), w')
  | (Done (sets, header, None), w') =>
      let totalSetCount := len sets in
      match header !! "Total-Count" with
      | Some (totals0 :: _) =>
          match strconv_Atoi totals0 with
          | (_, Some err) => (Done (None, 0, Some err), w')
          | (totalSetCount', None) => (Done (sets, totalSetCount', None), w')
          end
      | _ => (Done (sets, totalSetCount, None), w')
      end
  end.

(** [setQuery.Page]. *)
Definition Page (h : Store) (q : setQuery) (pageNum : Z)
  : Go (slice (ptr Set_) * Z * option error) :=
  PageS h q pageNum 500.

(** ** Words of the description *)

(** The URL of a piece of a link header value if its relation is [next]. *)
Definition next_of_segment (link : string) : option string :=
  match linkRE_FindStringSubmatch link with
  | Some (_, m1, m2) => if decide (m2 = "next") then Some m1 else None
  | None => None
  end.

(** The URLs of the segments of a header value whose relation is [next],
    from left to right. *)
Definition nextSegments (v : string) : list string :=
  omap next_of_segment (strings_Split v ","%char).

End Package.

(** ** standard.go *)

Module Standard.

Record enterDate : Type := mkEnterDate { enterDate_Exact : string }.

Record exitDate : Type := mkExitDate { exitDate_Exact : string }.

Record sets : Type := mkSets {
  Name : string;
  Code : SetCode;
  EnterDate : enterDate;
  ExitDate : exitDate
}.

Record standardResp : Type := mkStandardResp {
  Deprecated : bool;
  Sets : slice sets
}.

(** What standard.go takes from the libraries, beside [http.Get]. A
    [time.Time] is the instant it denotes, a [Z] on the time line:
    [Local] leaves the instant as it is, [Before] and [After] are the strict
    orders. *)
Class Lib {rt : Runtime} : Type := {
  (** [io.ReadAll(resp.Body)], which fails when the stream breaks *)
  io_ReadAll : string → string + error;
  (** [json.Unmarshal(body, &stdResp)] *)
  json_Unmarshal_standardResp : string → standardResp + error;
  (** [time.Now()] *)
  time_Now : World → Z * World;
  (** [time.Parse(layout, value)] *)
  time_Parse : string → string → Z + error
}.

Section Standard.
Context {rt : Runtime} {lib : Lib}.

Definition longForm : string := "2006-01-02 15:04:05".

(** The value of [date] in [formatDate] after its assignment:
    [strings.Replace(strings.Split(date, ".")[0], "T", " ", 1)]. *)
Definition formatDate_date (date : string) : string :=
  strings_Replace1
    (default EmptyString (head (strings_Split date "."%char)))
    "T"%char " "%char.

(** The closure [formatDate] of [parseDates]. *)
Definition formatDate (date : string) : Z + error :=
  time_Parse longForm (formatDate_date date).

(** [parseDates]. *)
Definition parseDates (enter exit : string)
  : World → (bool * option error) * World :=
  λ w,
  let (currentDate, w1) := time_Now w in
  let enterValidated :=
    if decide (enter ≠ EmptyString) then
      match formatDate enter with
      | inr err => inr err
      | inl enterDate => inl (enterDate <? currentDate)
      end
    else inl false in
  match enterValidated with
  | inr err => ((false, Some err), w1)
  | inl enterValidated =>
      if decide (enter = EmptyString) then ((false, None), w1)
      else
        let exitValidated :=
          if decide (exit ≠ EmptyString) then
            match formatDate exit with
            | inr err => inr err
            | inl exitDate => inl (currentDate <? exitDate)
            end
          else inl false in
        match exitValidated with
        | inr err => ((false, Some err), w1)
        | inl exitValidated =>
            let exitValidated :=
              if decide (exit = EmptyString) then true else exitValidated in
            if enterValidated && exitValidated then ((true, None), w1)
            else ((false, None), w1)
        end
  end.

(** The loop [for _, setItem := range stdResp.Sets] of [StandardSets];
    [standardSets] is the map made before the loop, which nothing else
    refers to until it is returned, and [None] the nil map. *)
Fixpoint StandardSets_loop (items : list sets)
    (standardSets : gmap string SetCode) (w : World)
  : (option (gmap string SetCode) * option error) * World :=
  match items with
  | [] => ((Some standardSets, None), w)
  | setItem :: items' =>
      match parseDates (enterDate_Exact (EnterDate setItem))
                       (exitDate_Exact (ExitDate setItem)) w with
      | ((_, Some err), w') => ((None, Some err), w')
      | ((isStandard, None), w') =>
          StandardSets_loop items'
            (if isStandard
             then <[Name setItem := Code setItem]> standardSets
             else standardSets) w'
      end
  end.

Definition URL : string := "https://whatsinstandard.com/api/v6/standard.json".

(** [StandardSets]. *)
Definition StandardSets
  : World → (option (gmap string SetCode) * option error) * World :=
  λ w,
  match http_Get URL w with
  | (inr err, w') => ((None, Some err), w')
  | (inl resp, w') =>
      match io_ReadAll (Body resp) with
      | inr err => ((None, Some err), w')
      | inl body =>
          match json_Unmarshal_standardResp body with
          | inr err => ((None, Some err), w')
          | inl stdResp => StandardSets_loop (elems (Sets stdResp)) ∅ w'
          end
      end
  end.

(** *** Words for the properties *)

(** Whether [parseDates] takes a set with these dates to be in Standard when
    the clock reads [now]; [inr] is the error of a date that does not parse. *)
Definition in_standard (now : Z) (enter exit : string) : bool + error :=
  if decide (enter = EmptyString) then inl false
  else match formatDate enter with
       | inr err => inr err
       | inl t1 =>
           if decide (exit = EmptyString) then inl (t1 <? now)
           else match formatDate exit with
                | inr err => inr err
                | inl t2 => inl ((t1 <? now) && (now <? t2))
                end
       end.

(** The same for a decoded set, and whether the answer is yes. *)
Definition in_standard_item (now : Z) (item : sets) : bool + error :=
  in_standard now (enterDate_Exact (EnterDate item))
                  (exitDate_Exact (ExitDate item)).

Definition is_standard (now : Z) (item : sets) : bool :=
  match in_standard_item now item with
  | inl true => true
  | _ => false
  end.

End Standard.

End Standard.

(** ** A simulated runtime

    A scripted network and small stand-ins for the libraries, to run the
    package on concrete pages. *)

Module Sim.

(** The network: the responses still to be served, in order, and the URLs
    requested so far. *)
Record world : Type := mkWorld {
  script : list (Response + error);
  requests : list string
}.

Definition get (url : string) (w : world) : (Response + error) * world :=
  match script w with
  | r :: rest => (r, mkWorld rest (requests w ++ [url]))
  | [] => (inr (libraryError "net/http" "connection refused"),
           mkWorld [] (requests w ++ [url]))
  end.

(** The double quote. *)
Definition dq : string := String "034"%char EmptyString.

(** [s] without its first [n] bytes. *)
Fixpoint skip (n : nat) (s : string) : string :=
  match n, s with
  | S n', String _ s' => skip n' s'
  | _, _ => s
  end.

(** [s] cut around the first occurrence of [pat]. *)
Fixpoint cut_first (pat : string) (s : string) {struct s}
  : option (string * string) :=
  if String.prefix pat s then Some (EmptyString, skip (String.length pat) s)
  else match s with
       | EmptyString => None
       | String c s' =>
           match cut_first pat s' with
           | Some (b, a) => Some (String c b, a)
           | None => None
           end
       end.

(** [s] cut around the last occurrence of [pat]. *)
Fixpoint cut_last (pat : string) (s : string) {struct s}
  : option (string * string) :=
  match s with
  | EmptyString => if String.prefix pat s then Some (EmptyString, s) else None
  | String c s' =>
      match cut_last pat s' with
      | Some (b, a) => Some (String c b, a)
      | None =>
          if String.prefix pat s
          then Some (EmptyString, skip (String.length pat) s)
          else None
      end
  end.

(** Modelled from the spec: [linkRE], the regular expression of the package,
    whose declaration is not at hand. The description gives the shape of a
    segment as [<URL>; rel="REL"], the URL inside angle brackets and the
    relation inside quotes. The match starts at the first [<]; both groups
    are greedy. *)
Definition FindStringSubmatch (s : string)
  : option (string * string * string) :=
  match cut_first "<" s with
  | None => None
  | Some (_, r) =>
      match cut_last dq r with
      | None => None
      | Some (r1, _) =>
          match cut_last (">; rel=" +:+ dq) r1 with
          | None => None
          | Some (g1, g2) =>
              Some ("<" +:+ g1 +:+ ">; rel=" +:+ dq +:+ g2 +:+ dq, g1, g2)
          end
      end
  end.

(** A stand-in for the decoder of the error envelope: a body
    [status|message]. *)
Definition decode_ServerError (body : string) : ServerError + error :=
  match cut_first "|" body with
  | Some (st, msg) => inl (mkServerError st msg)
  | None => inr (libraryError "encoding/json" "invalid character")
  end.

(** A set of which only the code is known. *)
Definition set_of_code (c : string) : Set_ :=
  mkSet c EmptyString EmptyString EmptyString EmptyString EmptyString
        EmptyString EmptyString EmptyString false None.

Definition sets_of_codes (s : string) : slice (ptr Set_) :=
  if decide (s = EmptyString) then Some []
  else Some ((λ c, Some (set_of_code c)) <$> strings_Split s ","%char).

(** A stand-in for the decoder of the page envelope. The bodies it knows:
    [null]; [set:C], the singular field alone; [sets:C1,C2,...], the plural
    field alone; [both:C/C1,C2,...], both fields; [{}], neither. *)
Definition decode_setResponse (body : string) : ptr setResponse + error :=
  if decide (body = "null") then inl None
  else if decide (body = "{}") then inl (Some (mkSetResponse None None))
  else if String.prefix "set:" body then
    inl (Some (mkSetResponse None (Some (set_of_code (skip 4 body)))))
  else if String.prefix "sets:" body then
    inl (Some (mkSetResponse (sets_of_codes (skip 5 body)) None))
  else if String.prefix "both:" body then
    match cut_first "/" (skip 5 body) with
    | Some (c, cs) =>
        inl (Some (mkSetResponse (sets_of_codes cs) (Some (set_of_code c))))
    | None => inr (libraryError "encoding/json" "unexpected end of JSON input")
    end
  else inr (libraryError "encoding/json" "invalid character").

(** A stand-in for [decodeCards], a card being its id: a body
    [cards:I1,I2,...]. *)
Definition decode_cards (body : string) : slice (ptr string) * option error :=
  if String.prefix "cards:" body then
    (if decide (skip 6 body = EmptyString) then Some []
     else Some ((λ c, Some c) <$> strings_Split (skip 6 body) ","%char),
     None)
  else (None, Some (libraryError "encoding/json" "invalid character")).

(** A stand-in for [url.Values.Encode]: [k=v&] for every key, without
    escaping. *)
Definition encode (vals : Header) : string :=
  foldr (λ kv acc,
           fst kv +:+ "=" +:+ List.hd EmptyString (snd kv) +:+ "&" +:+ acc)
        EmptyString (map_to_list vals).

(** Decimal digits. *)
Fixpoint digits (acc : Z) (s : string) : option Z :=
  match s with
  | EmptyString => Some acc
  | String c s' =>
      let d := Z.of_nat (nat_of_ascii c) - 48 in
      if (0 <=? d) && (d <=? 9) then digits (10 * acc + d) s' else None
  end.

(** A stand-in for [strconv.Atoi]: an optional sign and decimal digits,
    within 64 bits. *)
Definition atoi (s : string) : Z * option error :=
  let syntax := (0, Some (libraryError "strconv" "invalid syntax")) in
  let number (neg : bool) (ds : string) :=
    if decide (ds = EmptyString) then syntax
    else match digits 0 ds with
         | None => syntax
         | Some n =>
             let n := if neg then - n else n in
             if (- 2 ^ 63 <=? n) && (n <? 2 ^ 63) then (n, None)
             else (0, Some (libraryError "strconv" "value out of range"))
         end in
  match s with
  | String "-" ds => number true ds
  | String "+" ds => number false ds
  | _ => number false s
  end.

(** A stand-in for [strconv.Itoa]. *)
Definition itoa (n : Z) : string := pretty n.

#[export] Instance runtime : Runtime := {|
  World := world;
  Card := string;
  http_Get := get;
  json_Decode_ServerError := decode_ServerError;
  json_Decode_setResponse := decode_setResponse;
  decodeCards := decode_cards;
  linkRE_FindStringSubmatch := FindStringSubmatch;
  queryURL := "https://api.example/v1/";
  url_Values_Encode := encode;
  strconv_Atoi := atoi;
  strconv_Itoa := itoa;
  strconv_Quote := λ s, dq +:+ s +:+ dq
|}.

(** A response with status 200. *)
Definition ok (header : Header) (body : string) : Response + error :=
  inl (mkResponse "200 OK" 200 header body).

(** A link segment [<url>; rel="rel"]. *)
Definition segment (url rel : string) : string :=
  "<" +:+ url +:+ ">; rel=" +:+ dq +:+ rel +:+ dq.

(** *** Pages and inputs of the worked runs *)

Definition set_A : ptr Set_ := Some (set_of_code "A").
Definition set_B : ptr Set_ := Some (set_of_code "B").
Definition set_C : ptr Set_ := Some (set_of_code "C").

(** The first URL of [All] on an accumulator without filters. *)
Definition start : string := "https://api.example/v1/sets?".

(** A header value with two segments whose relation is [next]. *)
Definition two_next : string :=
  segment "/a" "next" +:+ "," +:+ segment "/b" "next".

(** A page whose [Link] header is [two_next], then a last page. *)
Definition w_two_next : world :=
  mkWorld [ok {[ "Link" := [two_next] ]} "sets:A"; ok ∅ "sets:B"] [].

(** A page with two [Link] header values, the second of which alone has a
    [next] segment, and a page that is never asked for. *)
Definition link_values : list string :=
  [segment "/p0" "prev"; segment "/p2" "next"].

Definition w_two_values : world :=
  mkWorld [ok {[ "Link" := link_values ]} "sets:A,B"; ok ∅ "sets:C"] [].

(** A response with status 500 and a body the decoders refuse. *)
Definition resp_500 : Response :=
  mkResponse "500 Internal Server Error" 500 ∅ "<html>".

(** A response with status 404 and an error envelope. *)
Definition resp_404 : Response :=
  mkResponse "404 Not Found" 404 ∅ "404|Not Found".

(** A first page with a [next] segment, then a refused request. *)
Definition w_second_fails : world :=
  mkWorld [ok {[ "Link" := [segment "/p2" "next"] ]} "sets:A,B";
           inl resp_500] [].

(** Pages with and without a [Total-Count] header. *)
Definition w_total (v : string) : world :=
  mkWorld [ok {[ "Total-Count" := [v] ]} "sets:A,B"] [].

Definition w_no_total : world := mkWorld [ok ∅ "sets:A,B"] [].

(** A store with one accumulator, at location 1, holding one filter. *)
Definition h_one : Store := {[ 1%positive := {[ "name" := "Alpha" ]} ]}.

(** *** A server whose pages never end *)

(** The runtime [runtime] with another network: every request is answered
    with a page of one set whose [Link] header names a next page. *)
Definition looping : Runtime := {|
  World := unit;
  Card := string;
  http_Get := λ _ w,
    (ok {[ "Link" := [segment "/again" "next"] ]} "sets:A", w);
  json_Decode_ServerError := decode_ServerError;
  json_Decode_setResponse := decode_setResponse;
  decodeCards := decode_cards;
  linkRE_FindStringSubmatch := FindStringSubmatch;
  queryURL := "https://api.example/v1/";
  url_Values_Encode := encode;
  strconv_Atoi := atoi;
  strconv_Itoa := itoa;
  strconv_Quote := λ s, dq +:+ s +:+ dq
|}.

(** *** Stand-ins for standard.go *)

(** The decimal digits of a string. *)
Fixpoint only_digits (s : string) : string :=
  match s with
  | EmptyString => EmptyString
  | String c s' =>
      let d := Z.of_nat (nat_of_ascii c) - 48 in
      if (0 <=? d) && (d <=? 9) then String c (only_digits s')
      else only_digits s'
  end.

(** A stand-in for [time.Parse]: a value as long as the layout, with
    fourteen digits, is the instant these digits spell. *)
Definition parse_time (layout value : string) : Z + error :=
  let ds := only_digits value in
  if decide (String.length value = String.length layout
             ∧ String.length ds = 14%nat) then
    match digits 0 ds with
    | Some n => inl n
    | None => inr (libraryError "time" "cannot parse")
    end
  else inr (libraryError "time" "cannot parse").

(** A stand-in for the decoder of the sets in Standard: a body
    [NAME/CODE/ENTER/EXIT;...]; the empty body has no sets. *)
Definition decode_standard (body : string) : Standard.standardResp + error :=
  let item (s : string) : option Standard.sets :=
    match strings_Split s "/"%char with
    | [n; c; e; x] =>
        Some (Standard.mkSets n c (Standard.mkEnterDate e)
                              (Standard.mkExitDate x))
    | _ => None
    end in
  if decide (body = EmptyString) then inl (Standard.mkStandardResp false None)
  else match mapM item (strings_Split body ";"%char) with
       | Some items => inl (Standard.mkStandardResp false (Some items))
       | None => inr (libraryError "encoding/json" "invalid character")
       end.

(** The instant the clock of the simulation stands at. *)
Definition today : Z := 20200601000000.

#[export] Instance standard_lib : Standard.Lib (rt := runtime) := {|
  Standard.io_ReadAll := inl;
  Standard.json_Unmarshal_standardResp := decode_standard;
  Standard.time_Now := λ w, (today, w);
  Standard.time_Parse := parse_time
|}.

(** Sets that left Standard, are in it, come later, and have no date. *)
Definition std_body : string :=
  "Old/OLD/2017-09-29T00:00:00.000/2019-10-04T00:00:00.000;" +:+
  "Now/NOW/2019-10-04T00:00:00.000/;" +:+
  "Soon/SOON/2021-02-05T00:00:00.000/;" +:+
  "Undated/UND//".

(** What [decode_standard] makes of [std_body]. *)
Definition std_resp : Standard.standardResp :=
  Eval vm_compute in
    match decode_standard std_body with
    | inl r => r
    | inr _ => Standard.mkStandardResp false None
    end.

(** A body whose second set has an enter date that does not parse. *)
Definition std_body_bad : string :=
  "Now/NOW/2019-10-04T00:00:00.000/;Bad/BAD/yesterday/;Soon/SOON/x/".

Definition std_resp_bad : Standard.standardResp :=
  Eval vm_compute in
    match decode_standard std_body_bad with
    | inl r => r
    | inr _ => Standard.mkStandardResp false None
    end.

(** Three pages, each but the last with a [next] segment. *)
Definition w_three : world :=
  mkWorld [ok {[ "Link" := [segment "/p2" "next"] ]} "sets:A";
           ok {[ "Link" := [segment "/p3" "next"] ]} "sets:B";
           ok ∅ "sets:C"] [].

End Sim.

(** * Properties *)

(** ** The filter accumulator *)

Section Accumulator.
Implicit Types (h : Store) (l : positive) (m : gmap string string).
Implicit Types (ws : list (setColumn * string)) (c : setColumn).

(** The loop of [Copy] rebuilds the map it ranges over. *)
Lemma Copy_loop m : map_fold (λ k v r, <[k := v]> r) ∅ m = m.
Proof.
  apply (map_fold_weak_ind (λ r m', r = m')); [done|].
  by intros k v m' r _ ->.
Qed.

(** The loop over [q] in [All] and [PageS] gives every column the list of
    its one value. *)
Lemma queryVals_fmap m : queryVals m = (λ v, [v]) <$> m.
Proof.
  unfold queryVals.
  apply (map_fold_weak_ind (λ r m', r = (λ v, [v]) <$> m')).
  - by rewrite fmap_empty.
  - intros k v m' r _ ->. by rewrite fmap_insert.
Qed.

Lemma queryVals_lookup m c : queryVals m !! c = (λ v, [v]) <$> (m !! c).
Proof. by rewrite queryVals_fmap, lookup_fmap. Qed.

(** Reading after a write to the store. *)
Lemma entries_insert h l m : entries (<[l := m]> h) (ref l) = m.
Proof. unfold entries. by rewrite lookup_insert_eq. Qed.

Lemma entries_insert_ne h l l' m :
  l' ≠ l → entries (<[l' := m]> h) (ref l) = entries h (ref l).
Proof. intros Hne. unfold entries. by rewrite lookup_insert_ne. Qed.

(** [Where] on a made map returns the same reference. *)
Lemma Wheres_ref l ws h : (Wheres (ref l) ws h).1 = Done (ref l).
Proof.
  revert h. induction ws as [|[col qry] ws IH]; intros h; [done|]. apply IH.
Qed.

(** [Where] writes to the map of its receiver only. *)
Lemma Wheres_other l l' ws h :
  l' ≠ l → (Wheres (ref l) ws h).2 !! l' = h !! l'.
Proof.
  intros Hne. revert h. induction ws as [|[col qry] ws IH]; intros h; [done|].
  cbn [Wheres Where]. rewrite IH. by rewrite lookup_insert_ne.
Qed.

(** The entries after a chain of [Where] calls: every column has the value
    set last, and the columns not set keep theirs. *)
Lemma Wheres_entries l ws h c :
  entries (Wheres (ref l) ws h).2 (ref l) !! c =
  match last_set c ws with
  | Some v => Some v
  | None => entries h (ref l) !! c
  end.
Proof.
  revert h. induction ws as [|[col qry] ws IH]; intros h; [done|].
  cbn [Wheres Where last_set]. rewrite IH.
  destruct (last_set c ws) as [v|]; [done|].
  rewrite entries_insert. case_decide as Hc.
  - subst. by rewrite lookup_insert_eq.
  - by rewrite lookup_insert_ne.
Qed.

(** C3: after any chain of [Where] calls on an accumulator, a column has
    one value, the one set last (so setting a column twice leaves the
    second value), and the request gets the list of that one value; and
    after [Copy], the copy is another map with the entries of the original,
    no chain of [Where] calls on the copy changes the entries of the
    original, and none on the original changes those of the copy. *)
Theorem Where_last_wins_Copy_independent h l :
  l ∈ dom h →
  (∀ ws c,
     (Wheres (ref l) ws h).1 = Done (ref l) ∧
     entries (Wheres (ref l) ws h).2 (ref l) !! c =
       match last_set c ws with
       | Some v => Some v
       | None => entries h (ref l) !! c
       end ∧
     queryVals (entries (Wheres (ref l) ws h).2 (ref l)) !! c =
       (λ v, [v]) <$> entries (Wheres (ref l) ws h).2 (ref l) !! c) ∧
  (∀ ws0 ws1 c v1 v2,
     entries (Wheres (ref l) (ws0 ++ (c, v1) :: ws1 ++ [(c, v2)]) h).2 (ref l)
       !! c = Some v2) ∧
  (∃ l',
     (Copy (ref l) h).1 = ref l' ∧ l' ≠ l ∧
     entries (Copy (ref l) h).2 (ref l') = entries h (ref l) ∧
     entries (Copy (ref l) h).2 (ref l) = entries h (ref l) ∧
     (∀ ws, entries (Wheres (ref l') ws (Copy (ref l) h).2).2 (ref l)
            = entries h (ref l)) ∧
     (∀ ws, entries (Wheres (ref l) ws (Copy (ref l) h).2).2 (ref l')
            = entries h (ref l))).
Proof.
  intros Hl. split; [|split].
  - intros ws c. split; [apply Wheres_ref|]. split; [apply Wheres_entries|].
    apply queryVals_lookup.
  - intros ws0 ws1 c v1 v2. rewrite Wheres_entries.
    assert (Hlast : ∀ ws, last_set c (ws ++ [(c, v2)]) = Some v2).
    { induction ws as [|[col qry] ws IH]; cbn [app last_set].
      - by rewrite decide_True.
      - by rewrite IH. }
    rewrite (app_comm_cons ws1), app_assoc. by rewrite Hlast.
  - set (l' := fresh (dom h)).
    assert (Hfresh : l' ∉ dom h) by apply is_fresh.
    assert (Hne : l' ≠ l) by (intros ->; contradiction).
    exists l'. unfold Copy. fold l'. cbn [fst snd].
    rewrite Copy_loop.
    split; [done|]. split; [done|].
    split; [apply entries_insert|].
    split; [by apply entries_insert_ne|].
    split; intros ws.
    + transitivity (entries (<[l' := entries h (ref l)]> h) (ref l)).
      * unfold entries. by rewrite Wheres_other.
      * by apply entries_insert_ne.
    + transitivity (entries (<[l' := entries h (ref l)]> h) (ref l')).
      * unfold entries. by rewrite Wheres_other.
      * apply entries_insert.
Qed.

End Accumulator.

(** ** The network side *)

Section Properties.
Context {rt : Runtime}.

(** ** Shared facts *)

(** A response with status 200 passes [checkError]. *)
Lemma checkError_200 (r : Response) :
  StatusCode r = 200 → checkError r = None.
Proof. intros H. unfold checkError. by rewrite decide_True. Qed.

(** What [fetchSets] does with a response that [checkError] refuses. *)
Lemma fetchSets_refused (url : string) (w w' : World) (resp : Response)
    (e : error) :
  http_Get url w = (inl resp, w') →
  checkError resp = Some e →
  fetchSets url w = (Done (None, ∅, Some e), w').
Proof. intros Hget Hchk. unfold fetchSets. by rewrite Hget, Hchk. Qed.

(** What [fetchSets] does with a response it can decode. *)
Lemma fetchSets_decoded (url : string) (w w' : World) (resp : Response)
    (sr : setResponse) :
  http_Get url w = (inl resp, w') →
  StatusCode resp = 200 →
  json_Decode_setResponse (Body resp) = inl (Some sr) →
  fetchSets url w =
    (Done (match Set_field sr with
           | Some s => Some [Some s]
           | None => Sets sr
           end, resp_Header resp, None), w').
Proof.
  intros Hget Hok Hdec. unfold fetchSets.
  rewrite Hget, (checkError_200 _ Hok), Hdec.
  by destruct (Set_field sr).
Qed.

(** One turn of the loop of [All]. *)
Lemma All_loop_unfold (fuel : nat) (url : string) (allSets : slice (ptr Set_))
    (w : World) :
  url ≠ EmptyString →
  All_loop (S fuel) url allSets w =
    match fetchSets url w with
    | (Panic msg, w') => Some (Panic msg, w')
    | (Done (_, _, Some err), w') => Some (Done (None, Some err), w')
    | (Done (sets, header, None), w') =>
        match All_nextURL header with
        | Panic msg => Some (Panic msg, w')
        | Done nextURL' => All_loop fuel nextURL' (append allSets sets) w'
        end
    end.
Proof. intros Hne. simpl. by rewrite decide_False. Qed.

(** One turn of the inner loop, in the words of [next_of_segment]. *)
Lemma All_scan_segment (nextURL link : string) :
  All_scan nextURL link = default nextURL (next_of_segment link).
Proof.
  unfold All_scan, next_of_segment.
  destruct (linkRE_FindStringSubmatch link) as [[[m0 m1] m2]|]; [|done].
  by case_decide.
Qed.

(** The inner loop of [All] keeps the URL of the last [next] piece. *)
Lemma foldl_All_scan (parts : list string) (nextURL : string) :
  foldl All_scan nextURL parts =
  default nextURL (last (omap next_of_segment parts)).
Proof.
  revert nextURL. induction parts as [|link parts IH]; intros nextURL.
  - reflexivity.
  - cbn [foldl omap list_omap]. rewrite IH, All_scan_segment.
    destruct (next_of_segment link) as [u|]; [|done].
    rewrite last_cons. by destruct (last (omap next_of_segment parts)).
Qed.

(** [All] reads the first value of the [Link] header only. *)
Lemma All_nextURL_first (header : Header) (v : string) (rest : list string) :
  header !! "Link" = Some (v :: rest) →
  All_nextURL header = Done (default EmptyString (last (nextSegments v))).
Proof.
  intros H. unfold All_nextURL, nextSegments. rewrite H.
  by rewrite foldl_All_scan.
Qed.

(** ** The link header and the traversal of [All] *)

(** C1, as the code has it: when the first value of the [Link] header of a
    fetched page has segments whose relation is [next], the URL [All]
    requests next is the URL of the last of them in left-to-right order;
    every later [next] segment overwrites the URL of the earlier ones. *)
Theorem All_follows_last_next (fuel : nat) (url : string)
    (allSets sets : slice (ptr Set_)) (header : Header) (w w' : World)
    (v : string) (rest : list string) (u : string) :
  url ≠ EmptyString →
  fetchSets url w = (Done (sets, header, None), w') →
  header !! "Link" = Some (v :: rest) →
  last (nextSegments v) = Some u →
  All_nextURL header = Done u ∧
  All_loop (S fuel) url allSets w = All_loop fuel u (append allSets sets) w'.
Proof.
  intros Hurl Hfetch Hlink Hlast.
  assert (Hnext : All_nextURL header = Done u).
  { rewrite (All_nextURL_first _ _ _ Hlink). by rewrite Hlast. }
  split; [exact Hnext|].
  rewrite (All_loop_unfold _ _ _ _ Hurl), Hfetch. by rewrite Hnext.
Qed.

(** C10: when a fetched page carries two or more values of the [Link]
    header, [All] reads the first value only: the next URL is the one the
    first value alone gives, and when the first value has no segment whose
    relation is [next], [All] returns after this page, whatever the later
    values hold. *)
Theorem All_reads_first_Link_value (fuel : nat) (url : string)
    (allSets sets : slice (ptr Set_)) (header : Header) (w w' : World)
    (v0 v1 : string) (rest : list string) :
  url ≠ EmptyString →
  fetchSets url w = (Done (sets, header, None), w') →
  header !! "Link" = Some (v0 :: v1 :: rest) →
  All_nextURL header = All_nextURL {[ "Link" := [v0] ]} ∧
  (nextSegments v0 = [] →
   All_loop (S fuel) url allSets w =
     Some (Done (append allSets sets, None), w')).
Proof.
  intros Hurl Hfetch Hlink. split.
  - rewrite (All_nextURL_first _ _ _ Hlink).
    symmetry. apply (All_nextURL_first _ v0 []). apply lookup_singleton_eq.
  - intros Hnone.
    rewrite (All_loop_unfold _ _ _ _ Hurl), Hfetch.
    rewrite (All_nextURL_first _ _ _ Hlink), Hnone. cbn [last default].
    by destruct fuel.
Qed.

(** The loop of [All] returns no slice with an error. *)
Lemma All_loop_error_nil (fuel : nat) (url : string)
    (allSets res : slice (ptr Set_)) (e : error) (w w' : World) :
  All_loop fuel url allSets w = Some (Done (res, Some e), w') → res = None.
Proof.
  revert url allSets w. induction fuel as [|fuel IH]; intros url allSets w.
  - simpl. case_decide; congruence.
  - destruct (decide (url = EmptyString)) as [->|Hurl].
    { simpl. congruence. }
    rewrite (All_loop_unfold _ _ _ _ Hurl).
    destruct (fetchSets url w) as [[[[sets header] [err|]]|msg] w1];
      [congruence| |congruence].
    destruct (All_nextURL header) as [next|msg]; [|congruence].
    apply IH.
Qed.

(** Fuel for the pages on the way and one more turn gives the result of
    that turn. *)
Lemma All_loop_reaches (url : string) (allSets : slice (ptr Set_)) (w : World)
    (url' : string) (allSets' : slice (ptr Set_)) (w' : World) :
  All_reaches url allSets w url' allSets' w' →
  ∃ n : nat, ∀ fuel : nat,
    All_loop (n + S fuel) url allSets w = All_loop (S fuel) url' allSets' w'.
Proof.
  induction 1 as [|url allSets w sets header w1 next url' allSets' w'
                   Hurl Hfetch Hnext _ [n IH]].
  - by exists O.
  - exists (S n). intros fuel. cbn [Nat.add].
    rewrite (All_loop_unfold _ _ _ _ Hurl), Hfetch, Hnext. apply IH.
Qed.

(** C6: when, after any number of pages fetched with success, a page fetch
    of [All] fails with [e], [All] returns the nil slice and [e] (as soon
    as the fuel covers the pages fetched), whatever the earlier pages have
    put in [allSets]; and whenever [All] returns an error, the slice it
    returns is nil. *)
Theorem All_fails_without_partial_results (h : Store) (q : setQuery) :
  (∀ (url : string) (allSets sets : slice (ptr Set_)) (header : Header)
     (e : error) (w w1 w' : World),
     All_reaches (All_url h q) None w url allSets w1 →
     url ≠ EmptyString →
     fetchSets url w1 = (Done (sets, header, Some e), w') →
     ∃ n : nat, ∀ fuel : nat, (n ≤ fuel)%nat →
       All h q fuel w = Some (Done (None, Some e), w')) ∧
  (∀ (fuel : nat) (w w' : World) (res : slice (ptr Set_)) (e : error),
     All h q fuel w = Some (Done (res, Some e), w') → res = None).
Proof.
  split.
  - intros url allSets sets header e w w1 w' Hreach Hurl Hfetch.
    destruct (All_loop_reaches _ _ _ _ _ _ Hreach) as [n Hn].
    exists (n + 1)%nat. intros fuel Hle. unfold All.
    replace fuel with (n + S (fuel - n - 1))%nat by lia.
    by rewrite Hn, (All_loop_unfold _ _ _ _ Hurl), Hfetch.
  - intros fuel w w' res e. unfold All. apply All_loop_error_nil.
Qed.

(** ** Single pages *)

(** C2: when the page fetch of [PageS] succeeds, a [Total-Count] header
    whose first value [strconv.Atoi] parses to [n] makes the total count
    [n], whatever the number of entities of the page; without the header
    the total count is the number of entities of the page. *)
Theorem PageS_total_count (h : Store) (q : setQuery) (pageNum pageSize : Z)
    (w w' : World) (sets : slice (ptr Set_)) (header : Header) :
  fetchSets (PageS_url h q pageNum pageSize) w
    = (Done (sets, header, None), w') →
  (∀ (v : string) (rest : list string) (n : Z),
     header !! "Total-Count" = Some (v :: rest) →
     strconv_Atoi v = (n, None) →
     PageS h q pageNum pageSize w = (Done (sets, n, None), w')) ∧
  (header !! "Total-Count" = None →
   PageS h q pageNum pageSize w = (Done (sets, len sets, None), w')).
Proof.
  intros Hfetch. split.
  - intros v rest n Hhdr Hatoi. unfold PageS.
    by rewrite Hfetch, Hhdr, Hatoi.
  - intros Hhdr. unfold PageS. by rewrite Hfetch, Hhdr.
Qed.

(** C4: when the page fetch of [PageS] succeeds and the first value of the
    [Total-Count] header is one [strconv.Atoi] refuses with the error [e],
    [PageS] returns the nil slice, the count 0 and [e]. *)
Theorem PageS_total_count_malformed (h : Store) (q : setQuery)
    (pageNum pageSize : Z) (w w' : World) (sets : slice (ptr Set_))
    (header : Header) (v : string) (rest : list string) (n : Z) (e : error) :
  fetchSets (PageS_url h q pageNum pageSize) w
    = (Done (sets, header, None), w') →
  header !! "Total-Count" = Some (v :: rest) →
  strconv_Atoi v = (n, Some e) →
  PageS h q pageNum pageSize w = (Done (None, 0, Some e), w').
Proof.
  intros Hfetch Hhdr Hatoi. unfold PageS. by rewrite Hfetch, Hhdr, Hatoi.
Qed.

(** C7: [Page(n)] returns what [PageS(n, 500)] returns, and leaves the
    network as [PageS(n, 500)] leaves it; its one request is for the filters
    of the accumulator with [page] set to [n] and [pageSize] set to 500. *)
Theorem Page_is_PageS_500 (h : Store) (q : setQuery) (pageNum : Z)
    (w : World) :
  Page h q pageNum w = PageS h q pageNum 500 w ∧
  PageS_url h q pageNum 500 =
    queryURL +:+ "sets?" +:+
    url_Values_Encode
      (<["pageSize" := [strconv_Itoa 500]]>
         (<["page" := [strconv_Itoa pageNum]]>
            ((λ v, [v]) <$> entries h q))).
Proof.
  split; [reflexivity|].
  unfold PageS_url. by rewrite queryVals_fmap.
Qed.

(** ** The page fetcher *)

(** C5, as the code has it: for a response whose status code is not 200,
    [checkError], and with it [fetchSets], fails; when the body decodes as
    the error envelope the error is the decoded [ServerError], whose message
    is the decoded message field; when the body does not decode the error
    is a string error made by [errors.New], not a [ServerError], whose
    message is the status line of the response. *)
Theorem checkError_non_success (url : string) (w w' : World)
    (resp : Response) :
  http_Get url w = (inl resp, w') →
  StatusCode resp ≠ 200 →
  (∀ sverr : ServerError,
     json_Decode_ServerError (Body resp) = inl sverr →
     checkError resp = Some (ServerError_error sverr) ∧
     Error (ServerError_error sverr) = Message sverr ∧
     fetchSets url w = (Done (None, ∅, Some (ServerError_error sverr)), w')) ∧
  (∀ err : error,
     json_Decode_ServerError (Body resp) = inr err →
     checkError resp = Some (errorString (resp_Status resp)) ∧
     Error (errorString (resp_Status resp)) = resp_Status resp ∧
     fetchSets url w
       = (Done (None, ∅, Some (errorString (resp_Status resp))), w')).
Proof.
  intros Hget Hstatus. split.
  - intros sverr Hdec.
    assert (Hchk : checkError resp = Some (ServerError_error sverr)).
    { unfold checkError. by rewrite decide_False, Hdec. }
    eauto using fetchSets_refused.
  - intros err Hdec.
    assert (Hchk : checkError resp = Some (errorString (resp_Status resp))).
    { unfold checkError. by rewrite decide_False, Hdec. }
    eauto using fetchSets_refused.
Qed.

(** C8: for a response with status 200 whose body decodes to an envelope,
    [fetchSets] returns the one-element slice holding the singular field
    when that field is not nil, whatever the plural field holds, and the
    slice of the plural field when the singular field is nil. *)
Theorem fetchSets_singular_first (url : string) (w w' : World)
    (resp : Response) (sr : setResponse) :
  http_Get url w = (inl resp, w') →
  StatusCode resp = 200 →
  json_Decode_setResponse (Body resp) = inl (Some sr) →
  (∀ s : Set_,
     Set_field sr = Some s →
     fetchSets url w = (Done (Some [Some s], resp_Header resp, None), w')) ∧
  (Set_field sr = None →
   fetchSets url w = (Done (Sets sr, resp_Header resp, None), w')).
Proof.
  intros Hget Hok Hdec.
  rewrite (fetchSets_decoded _ _ _ _ _ Hget Hok Hdec).
  split; [intros s Hs|intros Hs]; by rewrite Hs.
Qed.

(** ** Singular lookups *)

(** C9: a lookup of a set by code whose page fetch succeeds with a slice of
    length other than one fails with the error [Set "code" not found], and
    a lookup of a card by id whose response has status 200 and decodes to a
    slice of length other than one fails with the error
    [Card with ID id not found]; neither returns an entity. *)
Theorem Fetch_needs_one_result :
  (∀ (s : SetCode) (w w' : World) (sets : slice (ptr Set_)) (header : Header),
     fetchSets (queryURL +:+ "sets/" +:+ s) w
       = (Done (sets, header, None), w') →
     len sets ≠ 1 →
     SetCode_Fetch s w
       = (Done (None, Some (errorString
                              ("Set " +:+ strconv_Quote s +:+ " not found"))),
          w')) ∧
  (∀ (filterID : string) (w w' : World) (resp : Response)
     (cards : slice (ptr Card)),
     http_Get (queryURL +:+ "cards/" +:+ filterID) w = (inl resp, w') →
     StatusCode resp = 200 →
     decodeCards (Body resp) = (cards, None) →
     len cards ≠ 1 →
     Fetch filterID w
       = (Done (None, Some (errorString
                              ("Card with ID " +:+ filterID +:+ " not found"))),
          w')).
Proof.
  split.
  - intros s w w' sets header Hfetch Hlen. unfold SetCode_Fetch.
    by rewrite Hfetch, decide_True.
  - intros filterID w w' resp cards Hget Hok Hdec Hlen. unfold Fetch.
    by rewrite Hget, (checkError_200 _ Hok), Hdec, decide_True.
Qed.

End Properties.

(** * Further properties *)

(** ** Making and writing accumulators *)

Section Accumulator_more.
Implicit Types (h : Store) (l : positive) (m : gmap string string).
Implicit Types (ws : list (setColumn * string)) (c : setColumn).

(** X1: [NewSetQuery] makes a map that the store did not hold, with no
    entry; the accumulators the store held keep their entries, also under
    any later chain of [Where] calls on the new one, and after such a chain
    the new one holds the columns of the chain, each with the value set
    last, and no other. *)
Theorem NewSetQuery_fresh_empty h :
  ∃ l,
    (NewSetQuery h).1 = ref l ∧ (l ∉ dom h) ∧
    entries (NewSetQuery h).2 (ref l) = ∅ ∧
    (∀ ws c,
       entries (Wheres (ref l) ws (NewSetQuery h).2).2 (ref l) !! c
         = last_set c ws) ∧
    (∀ ws l0, l0 ∈ dom h →
       entries (Wheres (ref l) ws (NewSetQuery h).2).2 (ref l0)
         = entries h (ref l0)).
Proof.
  set (l := fresh (dom h)).
  assert (Hfresh : l ∉ dom h) by apply is_fresh.
  exists l. unfold NewSetQuery. fold l. cbn [fst snd].
  split; [done|]. split; [done|]. split; [apply entries_insert|]. split.
  - intros ws c. rewrite Wheres_entries, entries_insert, lookup_empty.
    by destruct (last_set c ws).
  - intros ws l0 Hl0.
    assert (Hne : l0 ≠ l) by (intros ->; contradiction).
    transitivity (entries (<[l := ∅]> h) (ref l0)).
    + unfold entries. by rewrite Wheres_other.
    + by apply entries_insert_ne.
Qed.

(** X2: on a made map, setting a column twice in a row leaves the store
    that setting it once to the second value leaves, and two calls that set
    different columns leave the same store in either order. *)
Theorem Where_overwrites_and_commutes h l :
  (∀ c v1 v2,
     Wheres (ref l) [(c, v1); (c, v2)] h = Wheres (ref l) [(c, v2)] h) ∧
  (∀ c1 c2 v1 v2, c1 ≠ c2 →
     Wheres (ref l) [(c1, v1); (c2, v2)] h
       = Wheres (ref l) [(c2, v2); (c1, v1)] h).
Proof.
  split.
  - intros c v1 v2. cbn [Wheres Where]. rewrite entries_insert.
    by rewrite !insert_insert_eq.
  - intros c1 c2 v1 v2 Hne. cbn [Wheres Where]. rewrite !entries_insert.
    rewrite !insert_insert_eq. by rewrite (insert_insert_ne _ c1 c2).
Qed.

End Accumulator_more.

(** ** Results, errors and panics of the fetchers *)

Section Fetchers_more.
Context {rt : Runtime}.

(** The URLs of [All] and [PageS] depend on the accumulator through its
    entries only. *)
Lemma urls_of_entries (h h' : Store) (q q' : setQuery) :
  entries h' q' = entries h q →
  All_url h' q' = All_url h q ∧
  ∀ pageNum pageSize : Z,
    PageS_url h' q' pageNum pageSize = PageS_url h q pageNum pageSize.
Proof. intros H. unfold All_url, PageS_url. by rewrite H. Qed.

(** X3: a copy asks what its original asks: [All], [PageS] and [Page] on
    the result of [Copy] return, in the store [Copy] leaves, what they
    return on the original. *)
Theorem Copy_same_requests (h : Store) (q : setQuery) :
  (∀ (fuel : nat) (w : World),
     All (Copy q h).2 (Copy q h).1 fuel w = All h q fuel w) ∧
  (∀ (pageNum pageSize : Z) (w : World),
     PageS (Copy q h).2 (Copy q h).1 pageNum pageSize w
       = PageS h q pageNum pageSize w) ∧
  (∀ (pageNum : Z) (w : World),
     Page (Copy q h).2 (Copy q h).1 pageNum w = Page h q pageNum w).
Proof.
  assert (He : entries (Copy q h).2 (Copy q h).1 = entries h q).
  { unfold Copy. cbn [fst snd]. by rewrite Copy_loop, entries_insert. }
  destruct (urls_of_entries _ _ _ _ He) as [HAll HPageS].
  split; [|split].
  - intros fuel w. unfold All. by rewrite HAll.
  - intros pageNum pageSize w. unfold PageS. by rewrite HPageS.
  - intros pageNum w. unfold Page, PageS. by rewrite HPageS.
Qed.

(** X4: the nil map can be read and copied but not written: [All] and
    [PageS] ask for it what they ask for a map just made, [Copy] gives a
    made map without entries, and a chain of [Where] calls that is not
    empty panics and leaves the store as it was. *)
Theorem nil_setQuery (h : Store) :
  All_url h nilmap = All_url (NewSetQuery h).2 (NewSetQuery h).1 ∧
  (∀ pageNum pageSize : Z,
     PageS_url h nilmap pageNum pageSize
       = PageS_url (NewSetQuery h).2 (NewSetQuery h).1 pageNum pageSize) ∧
  Copy nilmap h = NewSetQuery h ∧
  (∀ (col : setColumn) (qry : string) (ws : list (setColumn * string)),
     Wheres nilmap ((col, qry) :: ws) h
       = (Panic "assignment to entry in nil map", h)).
Proof.
  assert (He : entries h nilmap = entries (NewSetQuery h).2 (NewSetQuery h).1).
  { unfold NewSetQuery. cbn [fst snd]. by rewrite entries_insert. }
  destruct (urls_of_entries _ _ _ _ He) as [HAll HPageS].
  split; [done|]. split; [done|]. split; [|done].
  unfold Copy, NewSetQuery. cbn [entries]. by rewrite map_fold_empty.
Qed.

(** X5: the request of [PageS] carries [page] and [pageSize] as given to
    [PageS], also when the accumulator has filters of these names, which it
    overrides; every other column goes with the one value the accumulator
    has for it. *)
Theorem PageS_url_params (h : Store) (q : setQuery) (pageNum pageSize : Z) :
  ∃ vals : Header,
    PageS_url h q pageNum pageSize
      = queryURL +:+ "sets?" +:+ url_Values_Encode vals ∧
    vals !! "page" = Some [strconv_Itoa pageNum] ∧
    vals !! "pageSize" = Some [strconv_Itoa pageSize] ∧
    ∀ c : string, c ≠ "page" → c ≠ "pageSize" →
      vals !! c = (λ v, [v]) <$> entries h q !! c.
Proof.
  eexists. split; [reflexivity|]. split; [|split].
  - rewrite lookup_insert_ne by done. apply lookup_insert_eq.
  - apply lookup_insert_eq.
  - intros c Hp Hs. rewrite !lookup_insert_ne by done.
    apply queryVals_lookup.
Qed.

(** X6: no fetcher returns a result together with an error: with an error,
    [fetchSets] returns the nil slice and the nil header, [PageS] the nil
    slice and the count 0, [SetCode.Fetch] and [Fetch] the nil pointer. *)
Theorem error_without_result :
  (∀ (url : string) (w w' : World) (sets : slice (ptr Set_))
     (header : Header) (e : error),
     fetchSets url w = (Done (sets, header, Some e), w') →
     sets = None ∧ header = ∅) ∧
  (∀ (h : Store) (q : setQuery) (pageNum pageSize : Z) (w w' : World)
     (sets : slice (ptr Set_)) (n : Z) (e : error),
     PageS h q pageNum pageSize w = (Done (sets, n, Some e), w') →
     sets = None ∧ n = 0) ∧
  (∀ (s : SetCode) (w w' : World) (p : ptr Set_) (e : error),
     SetCode_Fetch s w = (Done (p, Some e), w') → p = None) ∧
  (∀ (filterID : string) (w w' : World) (c : ptr Card) (e : error),
     Fetch filterID w = (Done (c, Some e), w') → c = None).
Proof.
  split; [|split; [|split]].
  - intros url w w' sets header e. unfold fetchSets.
    repeat case_match; intros; by simplify_eq.
  - intros h q pageNum pageSize w w' sets n e. unfold PageS.
    repeat case_match; intros; by simplify_eq.
  - intros s w w' p e. unfold SetCode_Fetch.
    repeat case_match; intros; by simplify_eq.
  - intros filterID w w' c e. unfold Fetch.
    repeat case_match; intros; by simplify_eq.
Qed.

(** X7: an error of [http.Get] comes out of every operation as it is, after
    this one request: out of [fetchSets], [PageS], [SetCode.Fetch], [Fetch]
    and, at any turn of its loop, [All]. *)
Theorem transport_error_surfaces (err : error) :
  (∀ (url : string) (w w' : World),
     http_Get url w = (inr err, w') →
     fetchSets url w = (Done (None, ∅, Some err), w') ∧
     ∀ (fuel : nat) (allSets : slice (ptr Set_)),
       url ≠ EmptyString →
       All_loop (S fuel) url allSets w = Some (Done (None, Some err), w')) ∧
  (∀ (h : Store) (q : setQuery) (pageNum pageSize : Z) (w w' : World),
     http_Get (PageS_url h q pageNum pageSize) w = (inr err, w') →
     PageS h q pageNum pageSize w = (Done (None, 0, Some err), w')) ∧
  (∀ (s : SetCode) (w w' : World),
     http_Get (queryURL +:+ "sets/" +:+ s) w = (inr err, w') →
     SetCode_Fetch s w = (Done (None, Some err), w')) ∧
  (∀ (filterID : string) (w w' : World),
     http_Get (queryURL +:+ "cards/" +:+ filterID) w = (inr err, w') →
     Fetch filterID w = (Done (None, Some err), w')).
Proof.
  assert (Hf : ∀ url w w', http_Get url w = (inr err, w') →
               fetchSets url w = (Done (None, ∅, Some err), w')).
  { intros url w w' H. unfold fetchSets. by rewrite H. }
  split; [|split; [|split]].
  - intros url w w' H. split; [by apply Hf|].
    intros fuel allSets Hurl.
    by rewrite (All_loop_unfold _ _ _ _ Hurl), (Hf _ _ _ H).
  - intros h q pageNum pageSize w w' H. unfold PageS. by rewrite (Hf _ _ _ H).
  - intros s w w' H. unfold SetCode_Fetch. by rewrite (Hf _ _ _ H).
  - intros filterID w w' H. unfold Fetch. by rewrite H.
Qed.

(** X8: a response with status 200 whose body decodes to the nil pointer
    (the JSON value [null]) makes [fetchSets] panic where it reads
    [sr.Set], and with it [PageS], [SetCode.Fetch] and [All]. *)
Theorem null_envelope_panics (url : string) (w w' : World) (resp : Response) :
  http_Get url w = (inl resp, w') →
  StatusCode resp = 200 →
  json_Decode_setResponse (Body resp) = inl None →
  fetchSets url w = (Panic "nil pointer dereference", w') ∧
  (∀ (h : Store) (q : setQuery) (pageNum pageSize : Z),
     url = PageS_url h q pageNum pageSize →
     PageS h q pageNum pageSize w = (Panic "nil pointer dereference", w')) ∧
  (∀ s : SetCode,
     url = queryURL +:+ "sets/" +:+ s →
     SetCode_Fetch s w = (Panic "nil pointer dereference", w')) ∧
  (∀ (fuel : nat) (allSets : slice (ptr Set_)),
     url ≠ EmptyString →
     All_loop (S fuel) url allSets w
       = Some (Panic "nil pointer dereference", w')).
Proof.
  intros Hget Hok Hdec.
  assert (Hf : fetchSets url w = (Panic "nil pointer dereference", w')).
  { unfold fetchSets. by rewrite Hget, (checkError_200 _ Hok), Hdec. }
  split; [exact Hf|]. split; [|split].
  - intros h q pageNum pageSize ->. unfold PageS. by rewrite Hf.
  - intros s ->. unfold SetCode_Fetch. by rewrite Hf.
  - intros fuel allSets Hurl.
    by rewrite (All_loop_unfold _ _ _ _ Hurl), Hf.
Qed.

(** X9: a header key that is present with no value: [PageS], which checks
    [len(totals) > 0], takes the count of the page; [All], which reads
    [linkH[0]] unchecked, panics. *)
Theorem header_key_without_values (url : string) (w w' : World)
    (sets : slice (ptr Set_)) (header : Header) :
  fetchSets url w = (Done (sets, header, None), w') →
  (∀ (h : Store) (q : setQuery) (pageNum pageSize : Z),
     url = PageS_url h q pageNum pageSize →
     header !! "Total-Count" = Some [] →
     PageS h q pageNum pageSize w = (Done (sets, len sets, None), w')) ∧
  (∀ (fuel : nat) (allSets : slice (ptr Set_)),
     url ≠ EmptyString →
     header !! "Link" = Some [] →
     All_loop (S fuel) url allSets w = Some (Panic "index out of range", w')).
Proof.
  intros Hf. split.
  - intros h q pageNum pageSize -> Hhdr. unfold PageS. by rewrite Hf, Hhdr.
  - intros fuel allSets Hurl Hhdr.
    rewrite (All_loop_unfold _ _ _ _ Hurl), Hf.
    unfold All_nextURL. by rewrite Hhdr.
Qed.

(** X10: [SetCode.Fetch] returns the one element of a page of length one,
    be it the nil pointer; it returns the singular field of an envelope
    whenever that field is not nil; and its index never fails: it panics
    only where [fetchSets] does. *)
Theorem SetCode_Fetch_result (s : SetCode) (w w' : World) :
  (∀ (p : ptr Set_) (header : Header),
     fetchSets (queryURL +:+ "sets/" +:+ s) w
       = (Done (Some [p], header, None), w') →
     SetCode_Fetch s w = (Done (p, None), w')) ∧
  (∀ (resp : Response) (sr : setResponse) (s' : Set_),
     http_Get (queryURL +:+ "sets/" +:+ s) w = (inl resp, w') →
     StatusCode resp = 200 →
     json_Decode_setResponse (Body resp) = inl (Some sr) →
     Set_field sr = Some s' →
     SetCode_Fetch s w = (Done (Some s', None), w')) ∧
  (∀ msg : string,
     SetCode_Fetch s w = (Panic msg, w') →
     fetchSets (queryURL +:+ "sets/" +:+ s) w = (Panic msg, w')).
Proof.
  split; [|split].
  - intros p header Hf. unfold SetCode_Fetch. by rewrite Hf.
  - intros resp sr s' Hget Hok Hdec Hs. unfold SetCode_Fetch.
    rewrite (fetchSets_decoded _ _ _ _ _ Hget Hok Hdec), Hs. done.
  - intros msg. unfold SetCode_Fetch.
    destruct (fetchSets _ w) as [[[[sets header] [err|]]|msg'] w1];
      [congruence| |congruence].
    case_decide as Hlen; [congruence|].
    destruct sets as [[|p [|p' l]]|]; unfold len in Hlen; cbn in Hlen |- *;
      try congruence; lia.
Qed.


End Fetchers_more.

(** ** The whole traversal of [All] *)

Section All_more.
Context {rt : Runtime}.

(** The first URL of [All] is not empty: the loop takes one turn at
    least. *)
Lemma All_url_nonempty (h : Store) (q : setQuery) : All_url h q ≠ EmptyString.
Proof. unfold All_url. by destruct queryURL. Qed.

(** The loop on a run of pages that ends without a next URL: it returns
    when the fuel covers the pages, and not before. *)
Lemma All_loop_pages (url : string) (w : World)
    (pages : list (slice (ptr Set_))) (w' : World) :
  All_pages url w pages EmptyString w' →
  ∀ (fuel : nat) (allSets : slice (ptr Set_)),
    All_loop fuel url allSets w =
      if decide (length pages ≤ fuel)%nat
      then Some (Done (foldl append allSets pages, None), w')
      else None.
Proof.
  intros H. remember EmptyString as url' eqn:Hurl'.
  induction H as [url w|url w sets header w1 next pages url' w'
                         Hurl Hfetch Hnext _ IH]; intros fuel allSets.
  - subst url. rewrite decide_True by (cbn; lia). by destruct fuel.
  - destruct fuel as [|fuel].
    + rewrite decide_False by (cbn; lia). cbn. by rewrite decide_False.
    + rewrite (All_loop_unfold _ _ _ _ Hurl), Hfetch, Hnext, (IH Hurl').
      cbn [length foldl]. repeat case_decide; (done || lia).
Qed.

(** What [append] builds from nothing: the entities of the pages in the
    order of the pages, and the nil slice if there is none. *)
Lemma foldl_append_pages (pages : list (slice (ptr Set_)))
    (allSets : slice (ptr Set_)) :
  elems (foldl append allSets pages)
    = elems allSets ++ concat (elems <$> pages) ∧
  (allSets = None → concat (elems <$> pages) = [] →
   foldl append allSets pages = None).
Proof.
  revert allSets. induction pages as [|sets pages IH]; intros allSets.
  - cbn. by rewrite app_nil_r.
  - cbn [foldl fmap list_fmap concat].
    destruct (IH (append allSets sets)) as [IH1 IH2].
    assert (Ha : elems (append allSets sets) = elems allSets ++ elems sets).
    { unfold append. destruct (elems sets); [by rewrite app_nil_r|done]. }
    split.
    + by rewrite IH1, Ha, app_assoc.
    + intros -> Hnil. apply app_eq_nil in Hnil as [Hs Hp].
      apply IH2; [|done]. unfold append. by rewrite Hs.
Qed.

(** X12: when the pages [All] fetches, each with success, end with one
    that names no next page, [All] returns, as soon as the fuel covers one
    turn for each page and not with less, the entities of these pages in
    the order of the pages, without any other; the slice is nil when the
    pages have no entity. *)
Theorem All_concatenates_pages (h : Store) (q : setQuery) (w w' : World)
    (pages : list (slice (ptr Set_))) :
  All_pages (All_url h q) w pages EmptyString w' →
  ∃ res : slice (ptr Set_),
    (∀ fuel : nat,
       All h q fuel w =
         if decide (length pages ≤ fuel)%nat
         then Some (Done (res, None), w') else None) ∧
    elems res = concat (elems <$> pages) ∧
    (concat (elems <$> pages) = [] → res = None).
Proof.
  intros H. exists (foldl append None pages).
  destruct (foldl_append_pages pages None) as [H1 H2].
  split; [|split].
  - intros fuel. unfold All. apply (All_loop_pages _ _ _ _ H).
  - exact H1.
  - by apply H2.
Qed.

(** X13: more fuel does not change what [All] returns, and [All] does not
    return without a request. *)
Theorem All_fuel_enough (h : Store) (q : setQuery) (w : World) :
  All h q 0 w = None ∧
  ∀ (fuel fuel' : nat)
    (r : run (slice (ptr Set_) * option error) * World),
    All h q fuel w = Some r → (fuel ≤ fuel')%nat → All h q fuel' w = Some r.
Proof.
  split.
  - unfold All. cbn. by rewrite decide_False by apply All_url_nonempty.
  - intros fuel fuel' r. unfold All.
    generalize (All_url h q) (None : slice (ptr Set_)). revert fuel' w.
    induction fuel as [|fuel IH]; intros fuel' w url allSets Hr Hle.
    + cbn in Hr. case_decide as Hurl; [|done]. subst url.
      by destruct fuel'.
    + destruct (decide (url = EmptyString)) as [->|Hurl].
      { cbn in Hr. by destruct fuel'. }
      destruct fuel' as [|fuel']; [lia|].
      rewrite (All_loop_unfold fuel _ _ _ Hurl) in Hr.
      rewrite (All_loop_unfold fuel' _ _ _ Hurl).
      destruct (fetchSets url w) as [[[[sets header] [err|]]|msg] w1];
        [done| |done].
      destruct (All_nextURL header) as [next|msg]; [|done].
      apply IH; [done|lia].
Qed.

(** X14: [All] has no bound on the pages and does not notice a URL that
    comes again: on a network that, as long as [Inv] holds, answers every
    request with a page that names a next page, and keeps [Inv], the loop
    does not return, whatever the fuel. *)
Theorem All_never_returns (Inv : World → Prop) :
  (∀ (url : string) (w : World), Inv w → url ≠ EmptyString →
     ∃ (sets : slice (ptr Set_)) (header : Header) (w' : World)
       (next : string),
       fetchSets url w = (Done (sets, header, None), w') ∧
       All_nextURL header = Done next ∧ next ≠ EmptyString ∧ Inv w') →
  ∀ (h : Store) (q : setQuery) (fuel : nat) (w : World),
    Inv w → All h q fuel w = None.
Proof.
  intros Hstep h q fuel w. unfold All.
  generalize (All_url_nonempty h q).
  generalize (All_url h q) (None : slice (ptr Set_)). revert w.
  induction fuel as [|fuel IH]; intros w url allSets Hurl Hinv.
  - cbn. by rewrite decide_False.
  - destruct (Hstep url w Hinv Hurl)
      as (sets & header & w' & next & Hfetch & Hnext & Hne & Hinv').
    rewrite (All_loop_unfold _ _ _ _ Hurl), Hfetch, Hnext. by apply IH.
Qed.

End All_more.

(** ** Strings *)

Section Strings_more.
Implicit Types (s cur rest : string) (sep a : ascii).

Lemma append_cons (c : ascii) s1 s2 :
  String c s1 +:+ s2 = String c (s1 +:+ s2).
Proof. reflexivity. Qed.

Lemma append_empty_l s : EmptyString +:+ s = s.
Proof. reflexivity. Qed.

Lemma append_assoc s1 s2 s3 : (s1 +:+ s2) +:+ s3 = s1 +:+ (s2 +:+ s3).
Proof.
  induction s1 as [|c s1 IH]; [done|]. rewrite !append_cons. by f_equal.
Qed.

Lemma append_empty_r s : s +:+ EmptyString = s.
Proof. induction s as [|c s IH]; [done|]. rewrite append_cons. by f_equal. Qed.

Lemma has_byte_app a s1 s2 :
  has_byte a (s1 +:+ s2) = has_byte a s1 || has_byte a s2.
Proof.
  induction s1 as [|c s1 IH]; [done|].
  rewrite append_cons. cbn [has_byte]. by rewrite IH, orb_assoc.
Qed.

(** A stretch without separator goes to the piece being read. *)
Lemma Split_from_app sep cur s rest :
  has_byte sep s = false →
  Split_from sep cur (s +:+ rest) = Split_from sep (cur +:+ s) rest.
Proof.
  revert cur. induction s as [|c s IH]; intros cur Hs.
  - by rewrite append_empty_l, append_empty_r.
  - cbn [has_byte] in Hs. apply orb_false_iff in Hs as [Hc Hs].
    rewrite append_cons. cbn [Split_from]. rewrite Hc.
    rewrite (IH _ Hs), append_assoc. done.
Qed.

(** A string without separator is one piece. *)
Lemma Split_from_whole sep cur s :
  has_byte sep s = false → Split_from sep cur s = [cur +:+ s].
Proof.
  intros Hs. rewrite <- (append_empty_r s) at 1.
  by rewrite (Split_from_app _ _ _ _ Hs).
Qed.

(** The first piece has no separator. *)
Lemma Split_from_head sep cur s :
  has_byte sep cur = false →
  ∃ (p : string) (ps : list string),
    Split_from sep cur s = p :: ps ∧ has_byte sep p = false.
Proof.
  revert cur. induction s as [|c s IH]; intros cur Hcur; cbn [Split_from].
  - eauto.
  - destruct (Ascii.eqb c sep) eqn:Hc; [eauto|].
    apply IH. rewrite has_byte_app, Hcur. cbn [has_byte]. by rewrite Hc.
Qed.

(** [strings.Replace] with a count of one. *)
Lemma strings_Replace1_absent s old new :
  has_byte old s = false → strings_Replace1 s old new = s.
Proof.
  induction s as [|c s IH]; [done|]. cbn [has_byte strings_Replace1].
  intros H. apply orb_false_iff in H as [Hc Hs]. by rewrite Hc, (IH Hs).
Qed.

Lemma strings_Replace1_first s1 s2 old new :
  has_byte old s1 = false →
  strings_Replace1 (s1 +:+ String old s2) old new = s1 +:+ String new s2.
Proof.
  induction s1 as [|c s1 IH].
  - intros _. rewrite !append_empty_l. cbn [strings_Replace1].
    by rewrite Ascii.eqb_refl.
  - cbn [has_byte]. intros H. apply orb_false_iff in H as [Hc Hs].
    rewrite !append_cons. cbn [strings_Replace1]. by rewrite Hc, (IH Hs).
Qed.

Lemma strings_Replace1_keeps_absent s old new a :
  a ≠ new → has_byte a s = false →
  has_byte a (strings_Replace1 s old new) = false.
Proof.
  intros Hne. induction s as [|c s IH]; [done|].
  cbn [has_byte strings_Replace1]. intros H.
  apply orb_false_iff in H as [Hc Hs].
  destruct (Ascii.eqb c old); cbn [has_byte].
  - rewrite Hs, orb_false_r. apply Ascii.eqb_neq. congruence.
  - by rewrite Hc, (IH Hs).
Qed.

(** What the loop of [BoosterContent.String] adds after the first turn. *)
Lemma BoosterContent_String_loop_pos (i : nat) s (cs : list string) :
  (0 < i)%nat →
  BoosterContent_String_loop i s cs
    = s +:+ foldr (λ c r, "|" +:+ (c +:+ r)) EmptyString cs.
Proof.
  revert i s. induction cs as [|c cs IH]; intros i s Hi;
    cbn [BoosterContent_String_loop foldr].
  - by rewrite append_empty_r.
  - rewrite decide_True by done. rewrite IH by lia.
    by rewrite !append_assoc.
Qed.

Lemma BoosterContent_String_cons (c : string) (cs : list string) :
  BoosterContent_String (Some (c :: cs))
    = c +:+ foldr (λ c r, "|" +:+ (c +:+ r)) EmptyString cs.
Proof.
  unfold BoosterContent_String. cbn [elems default from_option id].
  cbn [BoosterContent_String_loop]. rewrite decide_False by lia.
  rewrite BoosterContent_String_loop_pos by lia.
  by rewrite append_empty_l.
Qed.

(** X15: [BoosterContent.String] gives the empty string for the nil slice
    and for the empty one, and joins the elements of any other with [|]:
    when no element holds a [|], splitting the string at [|] gives the
    elements back. *)
Theorem BoosterContent_String_Split :
  BoosterContent_String None = EmptyString ∧
  BoosterContent_String (Some []) = EmptyString ∧
  ∀ cs : list string,
    cs ≠ [] →
    Forall (λ c, has_byte "|"%char c = false) cs →
    strings_Split (BoosterContent_String (Some cs)) "|"%char = cs.
Proof.
  split; [done|]. split; [done|].
  intros [|c cs] Hne Hcs; [done|]. clear Hne.
  rewrite BoosterContent_String_cons. unfold strings_Split.
  assert (H : ∀ cur, Split_from "|"%char cur
                       (c +:+ foldr (λ c r, "|" +:+ (c +:+ r)) EmptyString cs)
                     = (cur +:+ c) :: cs); [|by rewrite H].
  revert c Hcs. induction cs as [|c' cs IH]; intros c Hcs cur.
  - cbn [foldr]. rewrite append_empty_r.
    apply Split_from_whole. by inversion Hcs.
  - inversion Hcs as [|? ? Hc Hcs']; subst.
    rewrite (Split_from_app _ _ _ _ Hc). cbn [foldr].
    change ("|" +:+ ?x) with (String "|"%char x).
    cbn [Split_from]. rewrite Ascii.eqb_refl.
    by rewrite (IH _ Hcs'), append_empty_l.
Qed.

End Strings_more.

(** ** standard.go *)

Section Standard_more.
Context {rt : Runtime} {lib : Standard.Lib}.
Import Standard.

(** [parseDates] reads the clock once and answers as [in_standard] does for
    the instant read. *)
Lemma parseDates_in_standard (enter exit : string) (w : World) :
  parseDates enter exit w =
    (match in_standard (time_Now w).1 enter exit with
     | inl b => (b, None)
     | inr e => (false, Some e)
     end, (time_Now w).2).
Proof.
  unfold parseDates, in_standard. destruct (time_Now w) as [now w1].
  cbv beta iota zeta. cbn [fst snd].
  destruct (decide (enter = EmptyString)) as [->|Hen].
  { by rewrite decide_False by (intros H; by apply H). }
  rewrite decide_True by done.
  destruct (formatDate enter) as [t1|e]; [|done].
  destruct (decide (exit = EmptyString)) as [->|Hex].
  { rewrite decide_False by (intros H; by apply H).
    rewrite andb_true_r. by destruct (t1 <? now). }
  rewrite decide_True by done.
  destruct (formatDate exit) as [t2|e]; [|done].
  by destruct (t1 <? now), (now <? t2).
Qed.

(** X16: [parseDates] answers yes exactly when the enter date is not empty
    and parses to an instant strictly before the one the clock gives, and
    the exit date is empty or parses to an instant strictly after it. *)
Theorem parseDates_true_iff (enter exit : string) (w w' : World) :
  parseDates enter exit w = ((true, None), w') ↔
  w' = (time_Now w).2 ∧ enter ≠ EmptyString ∧
  ∃ t1 : Z,
    formatDate enter = inl t1 ∧ t1 < (time_Now w).1 ∧
    (exit = EmptyString ∨
     ∃ t2 : Z, formatDate exit = inl t2 ∧ (time_Now w).1 < t2).
Proof.
  rewrite parseDates_in_standard. unfold in_standard.
  destruct (time_Now w) as [now w1]. cbn [fst snd]. split.
  - intros H.
    destruct (decide (enter = EmptyString)) as [->|Hen]; [by simplify_eq|].
    destruct (formatDate enter) as [t1|e]; [|by simplify_eq].
    destruct (decide (exit = EmptyString)) as [->|Hex].
    + simplify_eq. split; [done|]. split; [done|]. exists t1.
      split; [done|]. split; [lia|by left].
    + destruct (formatDate exit) as [t2|e]; [|by simplify_eq].
      simplify_eq. split; [done|]. split; [done|]. exists t1.
      split; [done|]. split; [lia|]. right. exists t2. split; [done|lia].
  - intros (-> & Hen & t1 & H1 & Hlt & Hexit).
    rewrite decide_False by done. rewrite H1.
    destruct (decide (exit = EmptyString)) as [->|Hex].
    + f_equal. f_equal. apply Z.ltb_lt. lia.
    + destruct Hexit as [->|(t2 & H2 & Hgt)]; [done|]. rewrite H2.
      f_equal. f_equal. apply andb_true_iff. split; apply Z.ltb_lt; lia.
Qed.

(** X17: without an enter date [parseDates] answers no, with no error and
    without parsing the exit date; an enter date that does not parse gives
    its error whatever the exit date; an exit date that does not parse
    gives its error when the enter date parses. *)
Theorem parseDates_errors (exit : string) (w : World) :
  parseDates EmptyString exit w = ((false, None), (time_Now w).2) ∧
  (∀ (enter : string) (e : error),
     enter ≠ EmptyString → formatDate enter = inr e →
     parseDates enter exit w = ((false, Some e), (time_Now w).2)) ∧
  (∀ (enter : string) (t1 : Z) (e : error),
     enter ≠ EmptyString → formatDate enter = inl t1 →
     exit ≠ EmptyString → formatDate exit = inr e →
     parseDates enter exit w = ((false, Some e), (time_Now w).2)).
Proof.
  split; [|split].
  - rewrite parseDates_in_standard. unfold in_standard.
    by rewrite decide_True.
  - intros enter e Hen He. rewrite parseDates_in_standard.
    unfold in_standard. by rewrite decide_False, He.
  - intros enter t1 e Hen H1 Hex He. rewrite parseDates_in_standard.
    unfold in_standard. rewrite decide_False by done. rewrite H1.
    rewrite decide_False by done. by rewrite He.
Qed.

(** X18: the string [formatDate] hands to [time.Parse]: of a date
    [a T b . c] where [a] has no [T], and neither [a] nor [b] a dot, it is
    [a], a space and [b]; a date without [T] and without dot goes as it is;
    and no string handed over has a dot. *)
Theorem formatDate_date_shape :
  (∀ a b c : string,
     has_byte "T"%char a = false → has_byte "."%char a = false →
     has_byte "."%char b = false →
     formatDate_date (a +:+ "T" +:+ b +:+ "." +:+ c) = a +:+ " " +:+ b) ∧
  (∀ s : string,
     has_byte "T"%char s = false → has_byte "."%char s = false →
     formatDate_date s = s) ∧
  (∀ s : string, has_byte "."%char (formatDate_date s) = false).
Proof.
  split; [|split].
  - intros a b c HaT Ha Hb. unfold formatDate_date, strings_Split.
    change ("T" +:+ ?x) with (String "T"%char x).
    change ("." +:+ ?x) with (String "."%char x).
    change (" " +:+ ?x) with (String " "%char x).
    assert (Hab : has_byte "."%char (a +:+ String "T"%char b) = false).
    { rewrite has_byte_app, Ha. cbn [has_byte]. by rewrite Hb. }
    rewrite <- (append_cons "T"%char b (String "."%char c)).
    rewrite <- (append_assoc a (String "T"%char b) (String "."%char c)).
    rewrite (Split_from_app _ _ _ _ Hab). cbn [Split_from].
    rewrite Ascii.eqb_refl, append_empty_l. cbn [head default from_option id].
    by apply strings_Replace1_first.
  - intros s HT Hdot. unfold formatDate_date, strings_Split.
    rewrite (Split_from_whole _ _ _ Hdot), append_empty_l.
    cbn [head default from_option id]. by apply strings_Replace1_absent.
  - intros s. unfold formatDate_date, strings_Split.
    destruct (Split_from_head "."%char EmptyString s eq_refl)
      as (p & ps & -> & Hp).
    cbn [head default from_option id].
    by apply strings_Replace1_keeps_absent.
Qed.

(** The loop of [StandardSets] ends with the nil map and an error or with
    a map and no error. *)
Lemma StandardSets_loop_result (items : list sets) (m : gmap string SetCode)
    (w w' : World) (r : option (gmap string SetCode)) (e : option error) :
  StandardSets_loop items m w = ((r, e), w') →
  (is_Some r ∧ e = None) ∨ (r = None ∧ is_Some e).
Proof.
  revert m w. induction items as [|item items IH]; intros m w; cbn.
  - intros [= <- <- <-]. left. eauto.
  - destruct (parseDates _ _ w) as [[b [err|]] w1].
    + intros [= <- <- <-]. right. eauto.
    + apply IH.
Qed.

(** X19: [StandardSets] returns the nil map with every error and a map,
    be it empty, without one; and it does not look at the status of the
    response: a body that decodes to no set gives the empty map also under
    a status that is not 200. *)
Theorem StandardSets_result (w : World) :
  (∀ (w' : World) (r : option (gmap string SetCode)) (e : option error),
     StandardSets w = ((r, e), w') →
     (is_Some r ∧ e = None) ∨ (r = None ∧ is_Some e)) ∧
  (∀ (w' : World) (resp : Response) (body : string) (stdResp : standardResp),
     http_Get URL w = (inl resp, w') →
     io_ReadAll (Body resp) = inl body →
     json_Unmarshal_standardResp body = inl stdResp →
     elems (Sets stdResp) = [] →
     StandardSets w = ((Some ∅, None), w')).
Proof.
  split.
  - intros w' r e. unfold StandardSets.
    destruct (http_Get URL w) as [[resp|err] w1];
      [|intros [= <- <- <-]; right; eauto].
    destruct (io_ReadAll (Body resp)) as [body|err];
      [|intros [= <- <- <-]; right; eauto].
    destruct (json_Unmarshal_standardResp body) as [stdResp|err];
      [|intros [= <- <- <-]; right; eauto].
    apply StandardSets_loop_result.
  - intros w' resp body stdResp Hget Hread Hdec Hnil. unfold StandardSets.
    by rewrite Hget, Hread, Hdec, Hnil.
Qed.

(** The loop under a clock that stands at [now] and leaves the world as it
    is. *)
Lemma StandardSets_loop_frozen (now : Z) (items : list sets)
    (m : gmap string SetCode) (w : World) :
  (∀ w0 : World, time_Now w0 = (now, w0)) →
  Forall (λ item, ∃ b : bool, in_standard_item now item = inl b) items →
  StandardSets_loop items m w =
    ((Some (foldl (λ m item,
                     if is_standard now item
                     then <[Name item := Code item]> m else m) m items),
      None), w).
Proof.
  intros Hclock Hok. revert m.
  induction Hok as [|item items [b Hb] _ IH]; intros m; [done|].
  cbn [StandardSets_loop foldl]. rewrite parseDates_in_standard, Hclock.
  cbn [fst snd]. unfold is_standard.
  unfold in_standard_item in Hb |- *. rewrite Hb. rewrite IH.
  by destruct b.
Qed.

Lemma StandardSets_loop_first_error (now : Z) (items1 items2 : list sets)
    (item : sets) (e : error) (m : gmap string SetCode) (w : World) :
  (∀ w0 : World, time_Now w0 = (now, w0)) →
  Forall (λ item, ∃ b : bool, in_standard_item now item = inl b) items1 →
  in_standard_item now item = inr e →
  StandardSets_loop (items1 ++ item :: items2) m w = ((None, Some e), w).
Proof.
  intros Hclock Hok He. revert m.
  induction Hok as [|item1 items1 [b Hb] _ IH]; intros m.
  - cbn [app StandardSets_loop]. rewrite parseDates_in_standard, Hclock.
    cbn [fst snd]. unfold in_standard_item in He. by rewrite He.
  - cbn [app StandardSets_loop]. rewrite parseDates_in_standard, Hclock.
    cbn [fst snd]. unfold in_standard_item in Hb. rewrite Hb. apply IH.
Qed.

(** The map the loop builds has, for a name, the code of the last set of
    this name that is in Standard. *)
Lemma standard_map_lookup (now : Z) (items : list sets)
    (m : gmap string SetCode) (name : string) :
  foldl (λ m item,
           if is_standard now item
           then <[Name item := Code item]> m else m) m items !! name =
  match last (filter (λ item, Name item = name
                              ∧ is_standard now item = true) items) with
  | Some item => Some (Code item)
  | None => m !! name
  end.
Proof.
  revert m. induction items as [|item items IH]; intros m; [done|].
  cbn [foldl]. rewrite IH. rewrite filter_cons.
  destruct (is_standard now item) eqn:Hstd.
  - destruct (decide (Name item = name)) as [Hn|Hn].
    + rewrite decide_True by done. rewrite last_cons.
      destruct (last (filter _ items)); [done|].
      by rewrite <- Hn, lookup_insert_eq.
    + rewrite decide_False by (intros [? _]; done).
      destruct (last (filter _ items)); [done|].
      by rewrite lookup_insert_ne.
  - rewrite decide_False by (intros [_ ?]; done). done.
Qed.

(** X20: under a clock that stands at [now], [StandardSets] on a response
    whose body decodes, whatever its status: when every date parses, it
    returns a map that has, for every name, the code of the last decoded
    set of this name that [parseDates] takes to be in Standard, and no
    other name; when a date does not parse, it returns the nil map and the
    error of the first set that has such a date. *)
Theorem StandardSets_frozen_clock (now : Z) (w w' : World) (resp : Response)
    (body : string) (stdResp : standardResp) :
  (∀ w0 : World, time_Now w0 = (now, w0)) →
  http_Get URL w = (inl resp, w') →
  io_ReadAll (Body resp) = inl body →
  json_Unmarshal_standardResp body = inl stdResp →
  (Forall (λ item, ∃ b : bool, in_standard_item now item = inl b)
          (elems (Sets stdResp)) →
   ∃ m : gmap string SetCode,
     StandardSets w = ((Some m, None), w') ∧
     ∀ name : string,
       m !! name =
         Code <$> last (filter (λ item, Name item = name
                                        ∧ is_standard now item = true)
                               (elems (Sets stdResp)))) ∧
  (∀ (items1 items2 : list sets) (item : sets) (e : error),
     elems (Sets stdResp) = items1 ++ item :: items2 →
     Forall (λ item, ∃ b : bool, in_standard_item now item = inl b) items1 →
     in_standard_item now item = inr e →
     StandardSets w = ((None, Some e), w')).
Proof.
  intros Hclock Hget Hread Hdec. split.
  - intros Hok. eexists. split.
    + unfold StandardSets. rewrite Hget, Hread, Hdec.
      by apply (StandardSets_loop_frozen now).
    + intros name. rewrite standard_map_lookup, lookup_empty.
      by destruct (last _).
  - intros items1 items2 item e Hitems Hok He.
    unfold StandardSets. rewrite Hget, Hread, Hdec, Hitems.
    by apply (StandardSets_loop_first_error now).
Qed.

End Standard_more.

(** * Worked runs on the simulated runtime *)

Import Sim.

(** C1, refuted as stated: the header value [two_next] has two segments
    whose relation is [next], with the URLs [/a] and [/b] in this order;
    [All] does not take [/a], the first: it requests [/b]. *)
Lemma All_first_next_refuted :
  nextSegments two_next = ["/a"; "/b"] ∧
  All_nextURL {[ "Link" := [two_next] ]} = Done "/b" ∧
  All_nextURL {[ "Link" := [two_next] ]} ≠ Done "/a" ∧
  All ∅ nilmap 2 w_two_next =
    Some (Done (Some [set_A; set_B], None), mkWorld [] [start; "/b"]).
Proof.
  split; [by vm_compute|]. split; [by vm_compute|].
  split; [by vm_compute|]. by vm_compute.
Qed.

(** [All_follows_last_next] on the pages of [w_two_next]. *)
Lemma All_follows_last_next_witness :
  last (nextSegments two_next) = Some "/b" ∧
  All_nextURL {[ "Link" := [two_next] ]} = Done "/b" ∧
  All_loop 2 start None w_two_next =
    All_loop 1 "/b" (append None (Some [set_A]))
             (mkWorld [ok ∅ "sets:B"] [start]).
Proof.
  split; [vm_compute; reflexivity|].
  apply (All_follows_last_next (rt := runtime) 1 start None (Some [set_A])
           {[ "Link" := [two_next] ]} w_two_next
           (mkWorld [ok ∅ "sets:B"] [start]) two_next [] "/b").
  - discriminate.
  - vm_compute; reflexivity.
  - vm_compute; reflexivity.
  - vm_compute; reflexivity.
Defined.

(** [All_reads_first_Link_value] on the pages of [w_two_values]: the
    second header value has a [next] segment, and [All] stops all the
    same. *)
Lemma All_reads_first_Link_value_witness :
  nextSegments (segment "/p2" "next") = ["/p2"] ∧
  All_nextURL {[ "Link" := link_values ]}
    = All_nextURL {[ "Link" := [segment "/p0" "prev"] ]} ∧
  All_loop 2 start None w_two_values =
    Some (Done (append None (Some [set_A; set_B]), None),
          mkWorld [ok ∅ "sets:C"] [start]).
Proof.
  split; [vm_compute; reflexivity|].
  pose proof (All_reads_first_Link_value (rt := runtime) 1 start None
                (Some [set_A; set_B])
                {[ "Link" := link_values ]} w_two_values
                (mkWorld [ok ∅ "sets:C"] [start])
                (segment "/p0" "prev") (segment "/p2" "next") []) as H.
  destruct H as [H1 H2].
  - discriminate.
  - vm_compute; reflexivity.
  - vm_compute; reflexivity.
  - split; [exact H1|]. apply H2. vm_compute; reflexivity.
Defined.

(** [All_fails_without_partial_results] on the pages of [w_second_fails]:
    the sets of the first page are not returned. *)
Lemma All_fails_without_partial_results_witness :
  (∃ n : nat, ∀ fuel : nat, (n ≤ fuel)%nat →
     All ∅ nilmap fuel w_second_fails =
       Some (Done (None, Some (errorString "500 Internal Server Error")),
             mkWorld [] [start; "/p2"])) ∧
  (None : slice (ptr Set_)) = None.
Proof.
  destruct (All_fails_without_partial_results (rt := runtime) ∅ nilmap)
    as [H1 H2].
  split.
  - apply (H1 "/p2" (Some [set_A; set_B]) None ∅
              (errorString "500 Internal Server Error") w_second_fails
              (mkWorld [inl resp_500] [start]) (mkWorld [] [start; "/p2"])).
    + apply (reaches_page (rt := runtime) start None w_second_fails
               (Some [set_A; set_B]) {[ "Link" := [segment "/p2" "next"] ]}
               (mkWorld [inl resp_500] [start]) "/p2").
      * discriminate.
      * vm_compute; reflexivity.
      * vm_compute; reflexivity.
      * apply reaches_here.
    + discriminate.
    + vm_compute; reflexivity.
  - apply (H2 2%nat w_second_fails (mkWorld [] [start; "/p2"]) None
              (errorString "500 Internal Server Error")).
    vm_compute; reflexivity.
Defined.

(** [PageS_total_count]: a header [1234] on a page of two sets, and a page
    of two sets without the header. *)
Lemma PageS_total_count_witness :
  PageS ∅ nilmap 1 10 (w_total "1234") =
    (Done (Some [set_A; set_B], 1234, None),
     mkWorld [] [PageS_url ∅ nilmap 1 10]) ∧
  PageS ∅ nilmap 1 10 w_no_total =
    (Done (Some [set_A; set_B], len (Some [set_A; set_B]), None),
     mkWorld [] [PageS_url ∅ nilmap 1 10]).
Proof.
  split.
  - refine (proj1 (PageS_total_count (rt := runtime) ∅ nilmap 1 10
                     (w_total "1234")
                     (mkWorld [] [PageS_url ∅ nilmap 1 10])
                     (Some [set_A; set_B]) {[ "Total-Count" := ["1234"] ]} _)
                  "1234" [] 1234 _ _);
      vm_compute; reflexivity.
  - refine (proj2 (PageS_total_count (rt := runtime) ∅ nilmap 1 10 w_no_total
                     (mkWorld [] [PageS_url ∅ nilmap 1 10])
                     (Some [set_A; set_B]) ∅ _) _);
      vm_compute; reflexivity.
Defined.

(** [PageS_total_count_malformed]: a header [not-a-number]. *)
Lemma PageS_total_count_malformed_witness :
  strconv_Atoi "not-a-number"
    = (0, Some (libraryError "strconv" "invalid syntax")) ∧
  PageS ∅ nilmap 1 10 (w_total "not-a-number") =
    (Done (None, 0, Some (libraryError "strconv" "invalid syntax")),
     mkWorld [] [PageS_url ∅ nilmap 1 10]).
Proof.
  split; [vm_compute; reflexivity|].
  apply (PageS_total_count_malformed (rt := runtime) ∅ nilmap 1 10
           (w_total "not-a-number")
           (mkWorld [] [PageS_url ∅ nilmap 1 10]) (Some [set_A; set_B])
           {[ "Total-Count" := ["not-a-number"] ]} "not-a-number" [] 0);
    vm_compute; reflexivity.
Defined.

(** C5, refuted as stated: for the response [resp_500], whose status is
    not 200 and whose body does not decode as the error envelope, the error
    of [checkError] has the status line as its message but is no
    [ServerError]. *)
Lemma checkError_undecodable_refuted :
  StatusCode resp_500 ≠ 200 ∧
  json_Decode_ServerError (Body resp_500)
    = inr (libraryError "encoding/json" "invalid character") ∧
  checkError resp_500 = Some (errorString "500 Internal Server Error") ∧
  ¬ (∃ sverr : ServerError,
       checkError resp_500 = Some (ServerError_error sverr) ∧
       Message sverr = resp_Status resp_500).
Proof.
  split; [by vm_compute|]. split; [by vm_compute|]. split; [by vm_compute|].
  intros [sverr [H _]]. vm_compute in H. discriminate H.
Qed.

(** [checkError_non_success] on [resp_404] and on [resp_500]. *)
Lemma checkError_non_success_witness :
  (checkError resp_404
     = Some (ServerError_error (mkServerError "404" "Not Found")) ∧
   Error (ServerError_error (mkServerError "404" "Not Found")) = "Not Found" ∧
   fetchSets start (mkWorld [inl resp_404] []) =
     (Done (None, ∅,
            Some (ServerError_error (mkServerError "404" "Not Found"))),
      mkWorld [] [start])) ∧
  (checkError resp_500 = Some (errorString "500 Internal Server Error") ∧
   Error (errorString "500 Internal Server Error")
     = "500 Internal Server Error" ∧
   fetchSets start (mkWorld [inl resp_500] []) =
     (Done (None, ∅, Some (errorString "500 Internal Server Error")),
      mkWorld [] [start])).
Proof.
  split.
  - refine (proj1 (checkError_non_success (rt := runtime) start
                     (mkWorld [inl resp_404] []) (mkWorld [] [start])
                     resp_404 _ _)
                  (mkServerError "404" "Not Found") _);
      [vm_compute; reflexivity | vm_compute; discriminate
      | vm_compute; reflexivity].
  - refine (proj2 (checkError_non_success (rt := runtime) start
                     (mkWorld [inl resp_500] []) (mkWorld [] [start])
                     resp_500 _ _)
                  (libraryError "encoding/json" "invalid character") _);
      [vm_compute; reflexivity | vm_compute; discriminate
      | vm_compute; reflexivity].
Defined.

(** [fetchSets_singular_first]: an envelope with both fields gives the
    singular field alone, and one with the plural field alone gives its
    list. *)
Lemma fetchSets_singular_first_witness :
  fetchSets start (mkWorld [ok ∅ "both:C/A,B"] []) =
    (Done (Some [set_C], ∅, None), mkWorld [] [start]) ∧
  fetchSets start (mkWorld [ok ∅ "sets:A,B"] []) =
    (Done (Some [set_A; set_B], ∅, None), mkWorld [] [start]).
Proof.
  split.
  - refine (proj1 (fetchSets_singular_first (rt := runtime) start
                     (mkWorld [ok ∅ "both:C/A,B"] []) (mkWorld [] [start])
                     (mkResponse "200 OK" 200 ∅ "both:C/A,B")
                     (mkSetResponse (Some [set_A; set_B]) set_C) _ _ _)
                  (set_of_code "C") _);
      vm_compute; reflexivity.
  - refine (proj2 (fetchSets_singular_first (rt := runtime) start
                     (mkWorld [ok ∅ "sets:A,B"] []) (mkWorld [] [start])
                     (mkResponse "200 OK" 200 ∅ "sets:A,B")
                     (mkSetResponse (Some [set_A; set_B]) None) _ _ _) _);
      vm_compute; reflexivity.
Defined.

(** [Fetch_needs_one_result]: a lookup of a set answered with two sets, and
    a lookup of a card answered with no card. *)
Lemma Fetch_needs_one_result_witness :
  SetCode_Fetch "KTK" (mkWorld [ok ∅ "sets:A,B"] []) =
    (Done (None, Some (errorString ("Set " +:+ dq +:+ "KTK" +:+ dq
                                     +:+ " not found"))),
     mkWorld [] [queryURL +:+ "sets/KTK"]) ∧
  Fetch "386616" (mkWorld [ok ∅ "cards:"] []) =
    (Done (None, Some (errorString "Card with ID 386616 not found")),
     mkWorld [] [queryURL +:+ "cards/386616"]).
Proof.
  destruct (Fetch_needs_one_result (rt := runtime)) as [Hset Hcard]. split.
  - apply (Hset "KTK" (mkWorld [ok ∅ "sets:A,B"] [])
             (mkWorld [] [queryURL +:+ "sets/KTK"]) (Some [set_A; set_B]) ∅).
    + vm_compute; reflexivity.
    + vm_compute; discriminate.
  - apply (Hcard "386616" (mkWorld [ok ∅ "cards:"] [])
             (mkWorld [] [queryURL +:+ "cards/386616"])
             (mkResponse "200 OK" 200 ∅ "cards:") (Some [])).
    + vm_compute; reflexivity.
    + vm_compute; reflexivity.
    + vm_compute; reflexivity.
    + vm_compute; discriminate.
Defined.

(** [Where_last_wins_Copy_independent] on the store [h_one]. *)
Lemma Where_last_wins_Copy_independent_witness :
  1%positive ∈ dom h_one ∧
  entries (Wheres (ref 1) [("name", "Beta"); ("block", "Khans");
                           ("name", "Gamma")] h_one).2 (ref 1) !! "name"
    = Some "Gamma" ∧
  ∃ l' : positive,
    (Copy (ref 1) h_one).1 = ref l' ∧
    entries (Wheres (ref l') [("name", "Beta")] (Copy (ref 1) h_one).2).2
            (ref 1) = entries h_one (ref 1) ∧
    entries (Wheres (ref 1) [("name", "Beta")] (Copy (ref 1) h_one).2).2
            (ref l') = entries h_one (ref 1).
Proof.
  assert (Hdom : 1%positive ∈ dom h_one).
  { apply elem_of_dom. eexists. apply lookup_singleton_eq. }
  split; [exact Hdom|].
  destruct (Where_last_wins_Copy_independent h_one 1 Hdom)
    as [_ [Htwice [l' [Hl' [_ [_ [_ [Hcopy Horig]]]]]]]].
  split.
  - exact (Htwice [] [("block", "Khans")] "name" "Beta" "Gamma").
  - exists l'. split; [exact Hl'|]. split; [apply Hcopy|apply Horig].
Defined.

(** ** The examples of the description *)

(** The header [</p2>; rel="next", </p1>; rel="prev"] gives [/p2]; a header
    without a [next] segment gives the empty URL; segments of another
    shape are passed over. *)
Example All_nextURL_examples :
  All_nextURL {[ "Link" := [segment "/p2" "next" +:+ ", "
                              +:+ segment "/p1" "prev"] ]} = Done "/p2" ∧
  All_nextURL {[ "Link" := [segment "/p1" "prev"] ]} = Done EmptyString ∧
  All_nextURL {[ "Link" := ["junk, " +:+ segment "/p2" "next" +:+ ", <x>"] ]}
    = Done "/p2" ∧
  All_nextURL ∅ = Done EmptyString ∧
  All_nextURL {[ "Link" := [] ]} = Panic "index out of range".
Proof. repeat split; vm_compute; reflexivity. Qed.

(** [All] over three pages returns their sets in the order of the pages,
    with three requests. *)
Example All_three_pages :
  All ∅ nilmap 3
    (mkWorld [ok {[ "Link" := [segment "/p2" "next"] ]} "sets:A";
              ok {[ "Link" := [segment "/p3" "next"] ]} "sets:B";
              ok ∅ "sets:C"] []) =
  Some (Done (Some [set_A; set_B; set_C], None),
        mkWorld [] [start; "/p2"; "/p3"]).
Proof. vm_compute; reflexivity. Qed.

(** A body [null] with status 200 makes [fetchSets] panic. *)
Example fetchSets_null :
  fetchSets start (mkWorld [ok ∅ "null"] []) =
  (Panic "nil pointer dereference", mkWorld [] [start]).
Proof. vm_compute; reflexivity. Qed.

(** * Worked runs for the further properties *)

(** A new accumulator beside the one of [h_one]. *)
Lemma NewSetQuery_fresh_empty_witness :
  1%positive ∈ dom h_one ∧
  ∃ l : positive,
    (NewSetQuery h_one).1 = ref l ∧
    entries (Wheres (ref l) [("name", "Beta")] (NewSetQuery h_one).2).2
            (ref 1) = entries h_one (ref 1).
Proof.
  assert (Hdom : 1%positive ∈ dom h_one).
  { apply elem_of_dom. eexists. apply lookup_singleton_eq. }
  split; [exact Hdom|].
  destruct (NewSetQuery_fresh_empty h_one) as (l & Hl & _ & _ & _ & Hold).
  exists l. split; [exact Hl|]. apply Hold. exact Hdom.
Defined.

(** Two columns set in either order. *)
Lemma Where_overwrites_and_commutes_witness :
  "name" ≠ "block" ∧
  Wheres (ref 1) [("name", "Beta"); ("block", "Khans")] h_one
    = Wheres (ref 1) [("block", "Khans"); ("name", "Beta")] h_one.
Proof.
  split; [discriminate|].
  apply (proj2 (Where_overwrites_and_commutes h_one 1)). discriminate.
Defined.

(** The request of [PageS] for the accumulator of [h_one]. *)
Lemma PageS_url_params_witness :
  ∃ vals : Header,
    PageS_url h_one (ref 1) 2 50
      = queryURL +:+ "sets?" +:+ url_Values_Encode vals ∧
    vals !! "name" = (λ v, [v]) <$> entries h_one (ref 1) !! "name".
Proof.
  destruct (PageS_url_params (rt := runtime) h_one (ref 1) 2 50)
    as (vals & Hurl & _ & _ & Hother).
  exists vals. split; [exact Hurl|]. apply Hother; discriminate.
Defined.

(** Errors that come with nil results. *)
Lemma error_without_result_witness :
  ((None : slice (ptr Set_)) = None ∧ (∅ : Header) = ∅) ∧
  ((None : slice (ptr Set_)) = None ∧ 0 = 0) ∧
  (None : ptr Set_) = None ∧ (None : ptr string) = None.
Proof.
  destruct (error_without_result (rt := runtime)) as (Hf & Hp & Hs & Hc).
  split; [|split; [|split]].
  - apply (Hf start (mkWorld [inl resp_500] []) (mkWorld [] [start]) None ∅
              (errorString "500 Internal Server Error")).
    vm_compute; reflexivity.
  - apply (Hp ∅ nilmap 1 10 (w_total "not-a-number")
              (mkWorld [] [PageS_url ∅ nilmap 1 10]) None 0
              (libraryError "strconv" "invalid syntax")).
    vm_compute; reflexivity.
  - apply (Hs "KTK" (mkWorld [inl resp_404] [])
              (mkWorld [] [queryURL +:+ "sets/KTK"]) None
              (ServerError_error (mkServerError "404" "Not Found"))).
    vm_compute; reflexivity.
  - apply (Hc "386616" (mkWorld [ok ∅ "cards:"] [])
              (mkWorld [] [queryURL +:+ "cards/386616"]) None
              (errorString "Card with ID 386616 not found")).
    vm_compute; reflexivity.
Defined.

(** A network that refuses the connection. *)
Lemma transport_error_surfaces_witness :
  fetchSets start (mkWorld [] []) =
    (Done (None, ∅, Some (libraryError "net/http" "connection refused")),
     mkWorld [] [start]) ∧
  PageS ∅ nilmap 1 10 (mkWorld [] []) =
    (Done (None, 0, Some (libraryError "net/http" "connection refused")),
     mkWorld [] [PageS_url ∅ nilmap 1 10]) ∧
  SetCode_Fetch "KTK" (mkWorld [] []) =
    (Done (None, Some (libraryError "net/http" "connection refused")),
     mkWorld [] [queryURL +:+ "sets/KTK"]) ∧
  Fetch "386616" (mkWorld [] []) =
    (Done (None, Some (libraryError "net/http" "connection refused")),
     mkWorld [] [queryURL +:+ "cards/386616"]).
Proof.
  destruct (transport_error_surfaces (rt := runtime)
              (libraryError "net/http" "connection refused"))
    as (Hf & Hp & Hs & Hc).
  split; [|split; [|split]].
  - apply (Hf start (mkWorld [] []) (mkWorld [] [start])).
    vm_compute; reflexivity.
  - apply (Hp ∅ nilmap 1 10 (mkWorld [] [])). vm_compute; reflexivity.
  - apply (Hs "KTK" (mkWorld [] [])). vm_compute; reflexivity.
  - apply (Hc "386616" (mkWorld [] [])). vm_compute; reflexivity.
Defined.

(** A body [null]. *)
Lemma null_envelope_panics_witness :
  fetchSets start (mkWorld [ok ∅ "null"] []) =
    (Panic "nil pointer dereference", mkWorld [] [start]) ∧
  All_loop 1 start None (mkWorld [ok ∅ "null"] []) =
    Some (Panic "nil pointer dereference", mkWorld [] [start]).
Proof.
  destruct (null_envelope_panics (rt := runtime) start
              (mkWorld [ok ∅ "null"] []) (mkWorld [] [start])
              (mkResponse "200 OK" 200 ∅ "null"))
    as (Hf & _ & _ & HAll).
  - vm_compute; reflexivity.
  - vm_compute; reflexivity.
  - vm_compute; reflexivity.
  - split; [exact Hf|]. apply HAll. discriminate.
Defined.

(** Header keys with an empty list of values. *)
Lemma header_key_without_values_witness :
  PageS ∅ nilmap 1 10
      (mkWorld [ok {[ "Total-Count" := [] ]} "sets:A,B"] []) =
    (Done (Some [set_A; set_B], len (Some [set_A; set_B]), None),
     mkWorld [] [PageS_url ∅ nilmap 1 10]) ∧
  All_loop 1 start None (mkWorld [ok {[ "Link" := [] ]} "sets:A,B"] []) =
    Some (Panic "index out of range", mkWorld [] [start]).
Proof.
  split.
  - refine (proj1 (header_key_without_values (rt := runtime)
                     (PageS_url ∅ nilmap 1 10)
                     (mkWorld [ok {[ "Total-Count" := [] ]} "sets:A,B"] [])
                     (mkWorld [] [PageS_url ∅ nilmap 1 10])
                     (Some [set_A; set_B]) {[ "Total-Count" := [] ]} _)
                  ∅ nilmap 1 10 _ _);
      vm_compute; reflexivity.
  - refine (proj2 (header_key_without_values (rt := runtime) start
                     (mkWorld [ok {[ "Link" := [] ]} "sets:A,B"] [])
                     (mkWorld [] [start])
                     (Some [set_A; set_B]) {[ "Link" := [] ]} _)
                  0%nat None _ _);
      [vm_compute; reflexivity | discriminate | vm_compute; reflexivity].
Defined.

(** Lookups of a set: a page of one set, an envelope with both fields. *)
Lemma SetCode_Fetch_result_witness :
  SetCode_Fetch "A" (mkWorld [ok ∅ "sets:A"] []) =
    (Done (set_A, None), mkWorld [] [queryURL +:+ "sets/A"]) ∧
  SetCode_Fetch "C" (mkWorld [ok ∅ "both:C/A,B"] []) =
    (Done (set_C, None), mkWorld [] [queryURL +:+ "sets/C"]).
Proof.
  split.
  - refine (proj1 (SetCode_Fetch_result (rt := runtime) "A"
                     (mkWorld [ok ∅ "sets:A"] [])
                     (mkWorld [] [queryURL +:+ "sets/A"])) set_A ∅ _).
    vm_compute; reflexivity.
  - refine (proj1 (proj2 (SetCode_Fetch_result (rt := runtime) "C"
                            (mkWorld [ok ∅ "both:C/A,B"] [])
                            (mkWorld [] [queryURL +:+ "sets/C"])))
                  (mkResponse "200 OK" 200 ∅ "both:C/A,B")
                  (mkSetResponse (Some [set_A; set_B]) set_C)
                  (set_of_code "C") _ _ _ _);
      vm_compute; reflexivity.
Defined.


(** The three pages of [w_three]. *)
Lemma All_pages_w_three :
  All_pages (All_url ∅ nilmap) w_three
    [Some [set_A]; Some [set_B]; Some [set_C]] EmptyString
    (mkWorld [] [start; "/p2"; "/p3"]).
Proof.
  apply (pages_more (rt := runtime) _ _ (Some [set_A])
           {[ "Link" := [segment "/p2" "next"] ]}
           (mkWorld [ok {[ "Link" := [segment "/p3" "next"] ]} "sets:B";
                     ok ∅ "sets:C"] [start]) "/p2");
    [discriminate | vm_compute; reflexivity | vm_compute; reflexivity |].
  apply (pages_more (rt := runtime) _ _ (Some [set_B])
           {[ "Link" := [segment "/p3" "next"] ]}
           (mkWorld [ok ∅ "sets:C"] [start; "/p2"]) "/p3");
    [discriminate | vm_compute; reflexivity | vm_compute; reflexivity |].
  apply (pages_more (rt := runtime) _ _ (Some [set_C]) ∅
           (mkWorld [] [start; "/p2"; "/p3"]) EmptyString);
    [discriminate | vm_compute; reflexivity | vm_compute; reflexivity |].
  apply pages_none.
Defined.

Lemma All_concatenates_pages_witness :
  ∃ res : slice (ptr Set_),
    All ∅ nilmap 3 w_three
      = Some (Done (res, None), mkWorld [] [start; "/p2"; "/p3"]) ∧
    All ∅ nilmap 2 w_three = None ∧
    elems res = [set_A; set_B; set_C].
Proof.
  destruct (All_concatenates_pages (rt := runtime) ∅ nilmap w_three
              (mkWorld [] [start; "/p2"; "/p3"])
              [Some [set_A]; Some [set_B]; Some [set_C]] All_pages_w_three)
    as (res & Hrun & Helems & _).
  exists res. split; [|split].
  - exact (Hrun 3%nat).
  - exact (Hrun 2%nat).
  - exact Helems.
Defined.

(** More fuel for the three pages. *)
Lemma All_fuel_enough_witness :
  All ∅ nilmap 7 w_three =
    Some (Done (Some [set_A; set_B; set_C], None),
          mkWorld [] [start; "/p2"; "/p3"]).
Proof.
  apply (proj2 (All_fuel_enough (rt := runtime) ∅ nilmap w_three) 3%nat 7%nat).
  - vm_compute; reflexivity.
  - lia.
Defined.

(** The server whose pages never end. *)
Lemma All_never_returns_witness :
  All (rt := looping) ∅ nilmap 1000 tt = None.
Proof.
  apply (All_never_returns (rt := looping) (λ _, True)); [|exact I].
  intros url w _ _.
  exists (Some [set_A]), {[ "Link" := [segment "/again" "next"] ]}, w,
    "/again".
  split; [reflexivity|]. split; [vm_compute; reflexivity|].
  split; [discriminate|exact I].
Defined.

(** Booster contents and back. *)
Lemma BoosterContent_String_Split_witness :
  BoosterContent_String (Some ["rare"; "mythic rare"]) = "rare|mythic rare" ∧
  strings_Split (BoosterContent_String (Some ["rare"; "mythic rare"]))
                "|"%char = ["rare"; "mythic rare"].
Proof.
  split; [vm_compute; reflexivity|].
  apply (proj2 (proj2 BoosterContent_String_Split)); [discriminate|].
  repeat constructor.
Defined.

(** A set that entered Standard before [today] and has not left. *)
Lemma parseDates_true_iff_witness :
  Standard.parseDates "2019-10-04T00:00:00.000" EmptyString (mkWorld [] [])
    = ((true, None), mkWorld [] []).
Proof.
  apply (proj2 (parseDates_true_iff (rt := runtime) (lib := standard_lib)
                  "2019-10-04T00:00:00.000" EmptyString
                  (mkWorld [] []) (mkWorld [] []))).
  split; [reflexivity|]. split; [discriminate|].
  exists 20191004000000. split; [vm_compute; reflexivity|].
  split; [vm_compute; reflexivity|by left].
Defined.

(** Dates that do not parse. *)
Lemma parseDates_errors_witness :
  Standard.parseDates "yesterday" "2021-02-05T00:00:00.000" (mkWorld [] [])
    = ((false, Some (libraryError "time" "cannot parse")), mkWorld [] []) ∧
  Standard.parseDates "2019-10-04T00:00:00.000" "tomorrow" (mkWorld [] [])
    = ((false, Some (libraryError "time" "cannot parse")), mkWorld [] []).
Proof.
  destruct (parseDates_errors (rt := runtime) (lib := standard_lib)
              "2021-02-05T00:00:00.000" (mkWorld [] [])) as (_ & Henter & _).
  destruct (parseDates_errors (rt := runtime) (lib := standard_lib)
              "tomorrow" (mkWorld [] [])) as (_ & _ & Hexit).
  split.
  - apply Henter; [discriminate|vm_compute; reflexivity].
  - apply (Hexit "2019-10-04T00:00:00.000" 20191004000000);
      [discriminate | vm_compute; reflexivity | discriminate
      | vm_compute; reflexivity].
Defined.

(** A date with a fraction of a second. *)
Lemma formatDate_date_shape_witness :
  Standard.formatDate_date
    ("2019-10-04" +:+ "T" +:+ "00:00:00" +:+ "." +:+ "000")
    = "2019-10-04" +:+ " " +:+ "00:00:00".
Proof.
  apply (proj1 formatDate_date_shape); vm_compute; reflexivity.
Defined.

(** A response with status 404 and an empty body. *)
Lemma StandardSets_result_witness :
  Standard.StandardSets
      (mkWorld [inl (mkResponse "404 Not Found" 404 ∅ EmptyString)] [])
    = ((Some ∅, None), mkWorld [] [Standard.URL]).
Proof.
  apply (proj2 (StandardSets_result (rt := runtime) (lib := standard_lib)
                  (mkWorld [inl (mkResponse "404 Not Found" 404 ∅
                                            EmptyString)] []))
               (mkWorld [] [Standard.URL])
               (mkResponse "404 Not Found" 404 ∅ EmptyString) EmptyString
               (Standard.mkStandardResp false None));
    vm_compute; reflexivity.
Defined.

(** The sets of [std_body] on the day [today], and those of
    [std_body_bad]. *)
Lemma StandardSets_frozen_clock_witness :
  (∃ m : gmap string SetCode,
     Standard.StandardSets (mkWorld [ok ∅ std_body] [])
       = ((Some m, None), mkWorld [] [Standard.URL]) ∧
     m !! "Now" = Some "NOW" ∧ m !! "Old" = None ∧ m !! "Soon" = None) ∧
  Standard.StandardSets (mkWorld [ok ∅ std_body_bad] [])
    = ((None, Some (libraryError "time" "cannot parse")),
       mkWorld [] [Standard.URL]).
Proof.
  split.
  - destruct (proj1 (StandardSets_frozen_clock (rt := runtime)
                       (lib := standard_lib) today
                       (mkWorld [ok ∅ std_body] [])
                       (mkWorld [] [Standard.URL])
                       (mkResponse "200 OK" 200 ∅ std_body) std_body std_resp
                       (λ w0, eq_refl) eq_refl eq_refl eq_refl))
      as (m & Hrun & Hm).
    + repeat constructor; eexists; vm_compute; reflexivity.
    + exists m. split; [exact Hrun|].
      split; [|split]; rewrite Hm; vm_compute; reflexivity.
  - refine (proj2 (StandardSets_frozen_clock (rt := runtime)
                     (lib := standard_lib) today
                     (mkWorld [ok ∅ std_body_bad] [])
                     (mkWorld [] [Standard.URL])
                     (mkResponse "200 OK" 200 ∅ std_body_bad) std_body_bad
                     std_resp_bad (λ w0, eq_refl) eq_refl eq_refl eq_refl)
                  [Standard.mkSets "Now" "NOW"
                     (Standard.mkEnterDate "2019-10-04T00:00:00.000")
                     (Standard.mkExitDate EmptyString)]
                  [Standard.mkSets "Soon" "SOON" (Standard.mkEnterDate "x")
                     (Standard.mkExitDate EmptyString)]
                  (Standard.mkSets "Bad" "BAD"
                     (Standard.mkEnterDate "yesterday")
                     (Standard.mkExitDate EmptyString))
                  (libraryError "time" "cannot parse") _ _ _).
    + vm_compute; reflexivity.
    + repeat constructor; eexists; vm_compute; reflexivity.
    + vm_compute; reflexivity.
Defined.
